(** * scripts/generate_pr.py: a shallow embedding and its properties

    The script collects git metadata between a base reference and the
    checked-out branch, loads a pull-request template and writes a prompt
    to [pr_prompt.txt].

    Python [str] values are sequences of Unicode code points, so a string
    is a [list N] here: [len], slicing and [strip] count characters, not
    bytes.  The operating system is a [World] record threaded through an
    error-and-state monad [M]: the program reads [sys.argv], spawns
    subprocesses, tests and reads files, writes one file and prints one
    line. *)

From Stdlib Require Import ZArith NArith Ascii String.
From stdpp Require Import base list gmap.

Open Scope N_scope.

(** ** Python strings *)

Abbreviation str := (list N).

(** Source literals are written as UTF-8 text and decoded to code points. *)
Fixpoint utf8_decode (bs : list N) : str :=
  match bs with
  | [] => []
  | b0 :: r0 =>
      if b0 <? 128 then b0 :: utf8_decode r0
      else if b0 <? 224 then
        match r0 with
        | b1 :: r1 => ((b0 mod 32) * 64 + b1 mod 64) :: utf8_decode r1
        | _ => []
        end
      else if b0 <? 240 then
        match r0 with
        | b1 :: b2 :: r2 =>
            ((b0 mod 16) * 4096 + (b1 mod 64) * 64 + b2 mod 64)
              :: utf8_decode r2
        | _ => []
        end
      else
        match r0 with
        | b1 :: b2 :: b3 :: r3 =>
            ((b0 mod 8) * 262144 + (b1 mod 64) * 4096
             + (b2 mod 64) * 64 + b3 mod 64) :: utf8_decode r3
        | _ => []
        end
  end.

Definition lit (s : string) : str :=
  utf8_decode (map N_of_ascii (list_ascii_of_string s)).

(** [str.isspace] on one character: the code points Python treats as
    whitespace. *)
Definition isspace (c : N) : bool :=
  ((9 <=? c) && (c <=? 13)) || ((28 <=? c) && (c <=? 32))
  || (c =? 133) || (c =? 160) || (c =? 5760)
  || ((8192 <=? c) && (c <=? 8202))
  || (c =? 8232) || (c =? 8233) || (c =? 8239) || (c =? 8287)
  || (c =? 12288).

(** [s.lstrip()], [s.rstrip()] and [s.strip()] without argument. *)
Fixpoint lstrip (s : str) : str :=
  match s with
  | [] => []
  | c :: s' => if isspace c then lstrip s' else s
  end.

Fixpoint rstrip (s : str) : str :=
  match s with
  | [] => []
  | c :: s' =>
      match rstrip s' with
      | [] => if isspace c then [] else [c]
      | r => c :: r
      end
  end.

Definition strip (s : str) : str := rstrip (lstrip s).

(** Line boundaries of [str.splitlines]: LF, VT, FF, CR (and CR LF as
    one), FS, GS, RS, NEL, LS and PS. *)
Definition is_linebreak (c : N) : bool :=
  ((10 <=? c) && (c <=? 13)) || ((28 <=? c) && (c <=? 30))
  || (c =? 133) || (c =? 8232) || (c =? 8233).

(** [splitlines_from cur s]: the lines of [s], where [cur] is the part of
    the current line already read.  A final line without terminator is
    kept only when it is not empty. *)
Fixpoint splitlines_from (cur s : str) : list str :=
  match s with
  | [] => match cur with [] => [] | _ => [cur] end
  | c :: s' =>
      if c =? 13 then
        match s' with
        | 10 :: s'' => cur :: splitlines_from [] s''
        | _ => cur :: splitlines_from [] s'
        end
      else if is_linebreak c then cur :: splitlines_from [] s'
      else splitlines_from (cur ++ [c]) s'
  end.

Definition splitlines (s : str) : list str := splitlines_from [] s.

(** [sep.join(parts)]. *)
Fixpoint join (sep : str) (parts : list str) : str :=
  match parts with
  | [] => []
  | [x] => x
  | x :: rest => x ++ sep ++ join sep rest
  end.

(** [l[:n]] for a Python integer [n]: a negative bound counts from the
    end. *)
Definition slice_to {A} (l : list A) (n : Z) : list A :=
  if (n <? 0)%Z then take (length l - Z.to_nat (- n))%nat l
  else take (Z.to_nat n) l.

(** [s.encode("utf-8")] succeeds: no character of [s] is a surrogate
    (U+D800 to U+DFFF).  Such characters reach a Python string from
    [sys.argv] and from file names that are not valid UTF-8. *)
Definition encodable (s : str) : bool :=
  forallb (λ c, negb ((55296 <=? c) && (c <=? 57343))) s.

(** Truthiness of a string: [if p:]. *)
Definition truthy (p : str) : bool :=
  match p with [] => false | _ => true end.

(** ** The world outside the interpreter *)

(** What [subprocess.run] hands back once the child has exited. *)
Record CompletedProcess := {
  returncode : Z;
  stdout : str;
  stderr : str
}.

(** [argv] is [sys.argv].  [os_exec] is the outcome of running a command
    line: the child can be started, and [stdout] and [stderr] are its
    output as [text=True] decodes it.  [cwd_name] is the last component
    of the resolved working directory.  [files] holds the regular text
    files by relative path, each with the text [read_text] yields for
    it; a path exists when it is in the map.  [spawned] is the log of
    the command lines executed so far and [console] the lines printed
    so far. *)
Record World := {
  argv : list str;
  os_exec : list str → CompletedProcess;
  cwd_name : str;
  files : gmap str str;
  spawned : list (list str);
  console : list str
}.

Definition log_spawn (cmd : list str) (w : World) : World :=
  {| argv := argv w; os_exec := os_exec w; cwd_name := cwd_name w;
     files := files w; spawned := spawned w ++ [cmd];
     console := console w |}.

Definition store_file (f content : str) (w : World) : World :=
  {| argv := argv w; os_exec := os_exec w; cwd_name := cwd_name w;
     files := <[f := content]> (files w); spawned := spawned w;
     console := console w |}.

Definition emit_line (line : str) (w : World) : World :=
  {| argv := argv w; os_exec := os_exec w; cwd_name := cwd_name w;
     files := files w; spawned := spawned w;
     console := console w ++ [line] |}.

(** ** Exceptions and the monad of effects *)

Inductive exn :=
  | IndexError
  | FileNotFoundError (path : str)
  | UnicodeEncodeError.

Inductive result (A : Type) :=
  | Ok (a : A)
  | Raise (e : exn).
Arguments Ok {A} a.
Arguments Raise {A} e.

Definition M (A : Type) : Type := World → result A * World.

#[global] Instance M_ret : MRet M := λ A a w, (Ok a, w).

#[global] Instance M_bind : MBind M := λ A B k m w,
  match m w with
  | (Ok a, w') => k a w'
  | (Raise e, w') => (Raise e, w')
  end.

Definition raise {A} (e : exn) : M A := λ w, (Raise e, w).

(** The value and the final world of a computation. *)
Definition value_of {A} (m : M A) (w : World) : result A := (m w).1.
Definition world_after {A} (m : M A) (w : World) : World := (m w).2.

(** *** Primitive effects *)

Definition sys_argv : M (list str) := λ w, (Ok (argv w), w).

(** [l[i]] raises [IndexError] out of range. *)
Definition py_index (l : list str) (i : nat) : M str :=
  match l !! i with
  | Some x => mret x
  | None => raise IndexError
  end.

Definition subprocess_run (cmd : list str) : M CompletedProcess :=
  λ w, (Ok (os_exec w cmd), log_spawn cmd w).

Definition path_exists (f : str) : M bool :=
  λ w, (Ok (bool_decide (is_Some (files w !! f))), w).

Definition path_read_text (f : str) : M str :=
  λ w, match files w !! f with
       | Some content => (Ok content, w)
       | None => (Raise (FileNotFoundError f), w)
       end.

(** [write_text(content, encoding="utf-8")] opens the file for writing,
    which empties it, and then writes the encoded text; it returns the
    number of characters written.  When the text cannot be encoded the
    write raises and the file stays empty. *)
Definition path_write_text (f content : str) : M nat :=
  λ w, if encodable content
       then (Ok (length content), store_file f content w)
       else (Raise UnicodeEncodeError, store_file f [] w).

Definition path_resolve_name : M str := λ w, (Ok (cwd_name w), w).

Definition print (line : str) : M () := λ w, (Ok (), emit_line line w).

(** ** The script *)

Definition run (cmd : list str) : M str :=
  cp ← subprocess_run cmd;
  mret (strip (stdout cp)).

Definition current_branch : M str :=
  run [lit "git"; lit "rev-parse"; lit "--abbrev-ref"; lit "HEAD"].

Definition commits (base head : str) : M str :=
  run [lit "git"; lit "log"; lit "--pretty=format:- %s";
       base ++ lit ".." ++ head].

Definition changed_files (base head : str) : M str :=
  run [lit "git"; lit "diff"; lit "--name-status";
       base ++ lit ".." ++ head].

(** One entry of [out]: the f-string of [patch_summary]. *)
Definition patch_block (f p : str) : str :=
  lit "
### " ++ f ++ lit "
```diff
" ++ take 1500 p ++ lit "
```".

(** The [for f in files[:limit]] loop, [out] being the list built so
    far. *)
Fixpoint patch_summary_loop (base head : str) (fs : list str)
    (out : list str) : M (list str) :=
  match fs with
  | [] => mret out
  | f :: rest =>
      p ← run [lit "git"; lit "diff"; base ++ lit ".." ++ head;
               lit "--"; f];
      if truthy p
      then patch_summary_loop base head rest (out ++ [patch_block f p])
      else patch_summary_loop base head rest out
  end.

Definition patch_summary (base head : str) (limit : Z) : M str :=
  listing ← run [lit "git"; lit "diff"; lit "--name-only";
                 base ++ lit ".." ++ head];
  out ← patch_summary_loop base head
          (slice_to (splitlines listing) limit) [];
  mret (join (lit "
") out).

(** The default of the [limit] parameter. *)
Definition default_limit : Z := 10.

Definition fallback_template : str := lit "# Problema

## Solução
".

Definition template_paths : list str :=
  [lit ".pull_request_template.md"; lit ".github/pull_request_template.md"].

(** The [for f in [...]] loop of [read_template], with the fallback
    after it. *)
Fixpoint read_template_from (candidates : list str) : M str :=
  match candidates with
  | [] => mret fallback_template
  | f :: rest =>
      e ← path_exists f;
      if (e : bool) then path_read_text f else read_template_from rest
  end.

Definition read_template : M str := read_template_from template_paths.

(** The f-string of [main], before [.strip()]. *)
Definition prompt_text
    (template repo head base commits_txt files_txt patches_txt : str)
    : str :=
  lit "
Você é um engenheiro experiente escrevendo a descrição de um Pull Request.

Preencha este **template de PR em português**:

---

" ++ template ++ lit "

---

Contexto:
- Repositório local: " ++ repo ++ lit "
- Branch: `" ++ head ++ lit "` ← `" ++ base ++ lit "`

Commits:
" ++ commits_txt ++ lit "

Arquivos alterados:
" ++ files_txt ++ lit "

Patches (exemplo):
" ++ patches_txt ++ lit "

---

**Responda com o template preenchido**, sem comentários extras.
".

Definition output_path : str := lit "pr_prompt.txt".

(** [main] up to and including the assignment of [prompt]. *)
Definition main_prompt : M str :=
  args ← sys_argv;
  base ← (if bool_decide (1 < length args)%nat
          then py_index args 1
          else mret (lit "main"));
  head ← current_branch;
  commits_txt ← commits base head;
  files_txt ← changed_files base head;
  patches_txt ← patch_summary base head default_limit;
  template ← read_template;
  repo ← path_resolve_name;
  mret (strip (prompt_text template repo head base
                 commits_txt files_txt patches_txt)).

Definition main : M () :=
  prompt ← main_prompt;
  _ ← path_write_text output_path prompt;
  print (lit "✅ Prompt salvo em pr_prompt.txt").

(** * Vocabulary of the properties *)

(** ** What the effectful functions compute *)

(** Several command lines appended to the log at once. *)
Definition log_spawns (cmds : list (list str)) (w : World) : World :=
  {| argv := argv w; os_exec := os_exec w; cwd_name := cwd_name w;
     files := files w; spawned := spawned w ++ cmds;
     console := console w |}.

(** The text [run cmd] hands back in world [w]. *)
Definition run_result (w : World) (cmd : list str) : str :=
  strip (stdout (os_exec w cmd)).

(** The command lines the script builds. *)
Definition branch_cmd : list str :=
  [lit "git"; lit "rev-parse"; lit "--abbrev-ref"; lit "HEAD"].

Definition log_cmd (base head : str) : list str :=
  [lit "git"; lit "log"; lit "--pretty=format:- %s"; base ++ lit ".." ++ head].

Definition name_status_cmd (base head : str) : list str :=
  [lit "git"; lit "diff"; lit "--name-status"; base ++ lit ".." ++ head].

Definition name_only_cmd (base head : str) : list str :=
  [lit "git"; lit "diff"; lit "--name-only"; base ++ lit ".." ++ head].

Definition file_diff_cmd (base head f : str) : list str :=
  [lit "git"; lit "diff"; base ++ lit ".." ++ head; lit "--"; f].

(** The per-file diff text [p] of the loop, and whether the loop keeps
    the file. *)
Definition file_diff (w : World) (base head f : str) : str :=
  run_result w (file_diff_cmd base head f).

Definition has_diff (w : World) (base head f : str) : Prop :=
  file_diff w base head f ≠ [].

#[global] Instance has_diff_dec w base head f : Decision (has_diff w base head f).
Proof. unfold has_diff. apply _. Defined.

Definition block_of (w : World) (base head f : str) : str :=
  patch_block f (file_diff w base head f).

(** The paths the loop visits: a positional prefix of the listing. *)
Definition listed_files (w : World) (base head : str) : list str :=
  splitlines (run_result w (name_only_cmd base head)).

(** The template the loader picks, as a function of the files alone. *)
Definition template_of (fs : gmap str str) : str :=
  match fs !! lit ".pull_request_template.md" with
  | Some content => content
  | None =>
      match fs !! lit ".github/pull_request_template.md" with
      | Some content => content
      | None => fallback_template
      end
  end.

(** The base reference [main] settles on. *)
Definition base_ref (args : list str) : str :=
  match args !! 1%nat with
  | Some b => b
  | None => lit "main"
  end.

(** The patch summary, the prompt and the command lines of a run with
    base reference [base], read off the world. *)
Definition patches_for (w : World) (base head : str) : str :=
  join (lit "
") (block_of w base head
      <$> filter (has_diff w base head) (take 10 (listed_files w base head))).

Definition prompt_for (w : World) (base : str) : str :=
  let head := run_result w branch_cmd in
  strip (prompt_text (template_of (files w)) (cwd_name w) head base
           (run_result w (log_cmd base head))
           (run_result w (name_status_cmd base head))
           (patches_for w base head)).

Definition commands_for (w : World) (base : str) : list (list str) :=
  let head := run_result w branch_cmd in
  [branch_cmd; log_cmd base head; name_status_cmd base head;
   name_only_cmd base head]
  ++ (file_diff_cmd base head <$> take 10 (listed_files w base head)).

Definition confirmation : str := lit "✅ Prompt salvo em pr_prompt.txt".

(** ** The shape of the stripped prompt *)

(** The text of the f-string between its first and its last newline. *)
Definition prompt_body
    (template repo head base commits_txt files_txt patches_txt : str)
    : str :=
  lit "Você é um engenheiro experiente escrevendo a descrição de um Pull Request.

Preencha este **template de PR em português**:

---

" ++ template ++ lit "

---

Contexto:
- Repositório local: " ++ repo ++ lit "
- Branch: `" ++ head ++ lit "` ← `" ++ base ++ lit "`

Commits:
" ++ commits_txt ++ lit "

Arquivos alterados:
" ++ files_txt ++ lit "

Patches (exemplo):
" ++ patches_txt ++ lit "

---

**Responda com o template preenchido**, sem comentários extras.".

(** ** Substrings in a given order *)

(** [in_order parts s]: the strings of [parts] occur in [s] one after the
    other, without overlap. *)
Fixpoint in_order (parts : list str) (s : str) : Prop :=
  match parts with
  | [] => True
  | p :: ps => ∃ a r, s = a ++ p ++ r ∧ in_order ps r
  end.

Definition substring (p s : str) : Prop := ∃ a r, s = a ++ p ++ r.

(** [drop_prefix p s] is what follows [p] when [s] starts with [p]. *)
Fixpoint drop_prefix (p s : str) : option str :=
  match p, s with
  | [], _ => Some s
  | _ :: _, [] => None
  | x :: p', y :: s' => if x =? y then drop_prefix p' s' else None
  end.

(** What follows the leftmost occurrence of [p] in [s]. *)
Fixpoint after_first (p s : str) : option str :=
  match drop_prefix p s with
  | Some r => Some r
  | None =>
      match s with
      | [] => None
      | _ :: s' => after_first p s'
      end
  end.

Fixpoint in_orderb (parts : list str) (s : str) : bool :=
  match parts with
  | [] => true
  | p :: ps =>
      match after_first p s with
      | Some r => in_orderb ps r
      | None => false
      end
  end.

(** ** Sample worlds *)

Definition reply (out : str) : CompletedProcess :=
  {| returncode := 0; stdout := out; stderr := [] |}.

(** A command table; anything else fails the way git does on a bad
    revision: status 128, nothing on standard output. *)
Fixpoint exec_table (table : list (list str * CompletedProcess))
    (cmd : list str) : CompletedProcess :=
  match table with
  | [] => {| returncode := 128; stdout := [];
             stderr := lit "fatal: bad revision" |}
  | (k, cp) :: rest => if decide (k = cmd) then cp else exec_table rest cmd
  end.

Definition bare_world (args : list str) (exec : list str → CompletedProcess)
    (fs : gmap str str) : World :=
  {| argv := args; os_exec := exec; cwd_name := lit "flutter_ort_plugin";
     files := fs; spawned := []; console := [] |}.

(** A command that prints to standard output and then exits with
    status 1. *)
Definition failing_world : World :=
  bare_world [lit "generate_pr.py"]
    (λ _, {| returncode := 1; stdout := lit "partial output
"; stderr := lit "error: something went wrong" |})
    ∅.

(** Twelve changed files, each with a two-thousand-character diff. *)
Definition twelve_paths : list str :=
  (λ n, lit "src/f" ++ [48 + N.of_nat n] ++ lit ".dart") <$> seq 0 12.

Definition long_diff : str := replicate 2000 231.

Definition twelve_files_world : World :=
  bare_world [lit "generate_pr.py"]
    (λ cmd, if decide (cmd = name_only_cmd (lit "main") (lit "dev"))
            then reply (join [10] twelve_paths ++ [10])
            else reply long_diff)
    ∅.

(** The number of bytes of the UTF-8 encoding of a string. *)
Definition utf8_size (s : str) : nat :=
  sum_list ((λ c : N, if c <? 128 then 1%nat else if c <? 2048 then 2%nat
                       else if c <? 65536 then 3%nat else 4%nat) <$> s).

(** The branch is [dev] and three files are listed; the second has no
    diff (the tool prints only a newline for it). *)
Definition dev_table : list (list str * CompletedProcess) :=
  [(branch_cmd, reply (lit "dev
"));
   (name_only_cmd (lit "main") (lit "dev"), reply (lit "a.py
b.py
c.py
"));
   (file_diff_cmd (lit "main") (lit "dev") (lit "a.py"), reply (lit "+a
"));
   (file_diff_cmd (lit "main") (lit "dev") (lit "b.py"), reply (lit "
"));
   (file_diff_cmd (lit "main") (lit "dev") (lit "c.py"), reply (lit "+c
"))].

Definition dev_world (args : list str) : World :=
  bare_world args (exec_table dev_table) ∅.

Definition gap_world : World := dev_world [lit "generate_pr.py"].

(** ** The shell runner *)

(** The claim as the specification words it: a non-zero exit status
    makes [run] hand back the empty string. *)
Definition nonzero_exit_gives_empty : Prop :=
  ∀ w cmd, returncode (os_exec w cmd) ≠ 0%Z → value_of (run cmd) w = Ok [].

(** ** The example run of the specification *)

Definition example_template : str := lit "# Problema

## Solução
".

(** A ten-line diff of [a.py]. *)
Definition example_diff : str := lit "diff --git a/a.py b/a.py
index 3b18e51..9d1a2c4 100644
--- a/a.py
+++ b/a.py
@@ -1,2 +1,4 @@
 def f(x):
-    return x
+    if x is None:
+        return 0
+    return x + 1".

(** Base [main], head [feature-x], commits "Fix bug" and "Add test",
    one changed file [a.py], template file present. *)
Definition example_world : World :=
  bare_world [lit "scripts/generate_pr.py"; lit "main"]
    (exec_table
       [(branch_cmd, reply (lit "feature-x
"));
        (log_cmd (lit "main") (lit "feature-x"), reply (lit "- Fix bug
- Add test"));
        (name_status_cmd (lit "main") (lit "feature-x"),
         reply (lit "M" ++ [9] ++ lit "a.py
"));
        (name_only_cmd (lit "main") (lit "feature-x"), reply (lit "a.py
"));
        (file_diff_cmd (lit "main") (lit "feature-x") (lit "a.py"),
         reply (example_diff ++ [10]))])
    {[ lit ".github/pull_request_template.md" := example_template ]}.

Definition example_prompt : str := lit "Você é um engenheiro experiente escrevendo a descrição de um Pull Request.

Preencha este **template de PR em português**:

---

# Problema

## Solução


---

Contexto:
- Repositório local: flutter_ort_plugin
- Branch: `feature-x` ← `main`

Commits:
- Fix bug
- Add test

Arquivos alterados:
M" ++ [9] ++ lit "a.py

Patches (exemplo):

### a.py
```diff
diff --git a/a.py b/a.py
index 3b18e51..9d1a2c4 100644
--- a/a.py
+++ b/a.py
@@ -1,2 +1,4 @@
 def f(x):
-    return x
+    if x is None:
+        return 0
+    return x + 1
```

---

**Responda com o template preenchido**, sem comentários extras.".

(** The order the specification gives for the example: both commit
    lines, the file name, the diff and then the template. *)
Definition example_order_as_specified : Prop :=
  ∃ p, value_of main_prompt example_world = Ok p
    ∧ in_order [lit "- Fix bug"; lit "- Add test"; lit "a.py";
                example_diff; example_template] p.

(** ** The commit list *)

Definition bullet (subject : str) : str := lit "- " ++ subject.

(** What [git log] prints for the format [--pretty=format:- %s] of
    [commits] when the range holds commits with the given subjects,
    newest first: one entry per commit, a newline between entries. *)
Definition git_log_stdout (subjects : list str) : str :=
  join [10] (bullet <$> subjects).

(** A subject as git reports it in the usual case: one non-empty line
    that does not end in whitespace. *)
Definition clean_subject (s : str) : Prop :=
  s ≠ [] ∧ rstrip s = s ∧ Forall (λ c, is_linebreak c = false) s.

(** The claim as the specification words it. *)
Definition commit_lines_as_specified : Prop :=
  ∀ w base head subjects,
    stdout (os_exec w (log_cmd base head)) = git_log_stdout subjects →
    ∃ txt, value_of (commits base head) w = Ok txt
      ∧ splitlines txt = bullet <$> subjects
      ∧ NoDup (splitlines txt).

(** Two commits carrying the same subject. *)
Definition twin_world : World :=
  bare_world [lit "generate_pr.py"]
    (exec_table
       [(branch_cmd, reply (lit "dev
"));
        (log_cmd (lit "main") (lit "dev"), reply (lit "- Fix bug
- Fix bug"))])
    ∅.

(** The older of two commits has an empty message. *)
Definition blank_world : World :=
  bare_world [lit "generate_pr.py"]
    (exec_table
       [(log_cmd (lit "main") (lit "dev"),
         reply (git_log_stdout [lit "Add test"; []]))])
    ∅.

(** ** Further vocabulary *)

(** A line as a tool prints it for one entry: not empty, no whitespace
    at either end, no line break inside. *)
Definition clean_line (l : str) : Prop :=
  l ≠ [] ∧ lstrip l = l ∧ rstrip l = l
  ∧ Forall (λ c, is_linebreak c = false) l.

(** What a tool prints for a list of entries: one per line, each line
    closed by a newline. *)
Definition printed_lines (ls : list str) : str :=
  match ls with
  | [] => []
  | _ => join [10] ls ++ [10]
  end.

(** No command writes anything but whitespace to standard output, as
    when git is run outside a repository. *)
Definition silent (w : World) : Prop :=
  ∀ cmd, forallb isspace (stdout (os_exec w cmd)) = true.

Definition silent_world : World :=
  bare_world [lit "generate_pr.py"] (exec_table []) ∅.

(** The first listed path starts with a space. *)
Definition spaced_world : World :=
  bare_world [lit "generate_pr.py"]
    (exec_table
       [(name_only_cmd (lit "main") (lit "dev"), reply (lit " a.py
b.py
"))])
    ∅.

(** The argument is a lone surrogate, as [sys.argv] holds for a byte
    that is not valid UTF-8. *)
Definition surrogate_world : World := dev_world [lit "generate_pr.py"; [56575]].

(** Two changed paths: one modified, one added. *)
Definition status_world : World :=
  bare_world [lit "generate_pr.py"]
    (exec_table
       [(name_status_cmd (lit "main") (lit "dev"),
         reply (lit "M" ++ [9] ++ lit "a.py
A" ++ [9] ++ lit "b.py
"))])
    ∅.

(** * Properties *)

(** ** Facts about the string operations *)

Section strings.

Implicit Types (s a b : str) (c : N).

Lemma lstrip_space c s : isspace c = true → lstrip (c :: s) = lstrip s.
Proof. intros H. cbn [lstrip]. by rewrite H. Qed.

Lemma lstrip_nonspace c s : isspace c = false → lstrip (c :: s) = c :: s.
Proof. intros H. cbn [lstrip]. by rewrite H. Qed.

Lemma lstrip_head s c r : lstrip s = c :: r → isspace c = false.
Proof.
  induction s as [|x s IH]; [done|]. cbn [lstrip].
  destruct (isspace x) eqn:Hx; [done|]. by intros [= <- _].
Qed.

Lemma lstrip_idemp s : lstrip (lstrip s) = lstrip s.
Proof.
  destruct (lstrip s) as [|c r] eqn:E; [done|].
  apply lstrip_nonspace. by eapply lstrip_head.
Qed.

Lemma lstrip_nil_iff s : lstrip s = [] ↔ forallb isspace s = true.
Proof.
  induction s as [|x s IH]; [done|]. cbn [lstrip forallb].
  destruct (isspace x); [done|]. split; [done|]. intros [=].
Qed.

Lemma rstrip_cons_nonspace c s : isspace c = false → rstrip (c :: s) = c :: rstrip s.
Proof. intros H. cbn [rstrip]. destruct (rstrip s); by rewrite ?H. Qed.

Lemma rstrip_app a b : rstrip b ≠ [] → rstrip (a ++ b) = a ++ rstrip b.
Proof.
  intros Hb. induction a as [|x a IH]; [done|].
  cbn [app rstrip]. rewrite IH.
  destruct (a ++ rstrip b) eqn:E; [|done].
  apply app_eq_nil in E as [_ E]. done.
Qed.

Lemma rstrip_app_ne a b : rstrip b ≠ [] → rstrip (a ++ b) ≠ [].
Proof.
  intros Hb. rewrite rstrip_app by done.
  intros E. apply app_eq_nil in E as [_ E]. done.
Qed.

Lemma rstrip_snoc_nonspace a c : isspace c = false → rstrip (a ++ [c]) = a ++ [c].
Proof. intros H. rewrite rstrip_app; cbn [rstrip]; by rewrite H. Qed.

Lemma rstrip_last s c : last (rstrip s) = Some c → isspace c = false.
Proof.
  revert c. induction s as [|x s IH]; intros c; [done|].
  cbn [rstrip]. destruct (rstrip s) as [|y r] eqn:E.
  - destruct (isspace x) eqn:Hx; [done|]. by intros [= <-].
  - rewrite last_cons. destruct (last (y :: r)) eqn:L.
    + intros [= <-]. by apply IH.
    + by apply last_None in L.
Qed.

Lemma rstrip_idemp s : rstrip (rstrip s) = rstrip s.
Proof.
  induction s as [|x s IH]; [done|]. cbn [rstrip].
  destruct (rstrip s) as [|y r] eqn:E.
  - destruct (isspace x) eqn:Hx; [done|]. cbn. by rewrite Hx.
  - cbn [rstrip] in IH |- *. by rewrite IH.
Qed.

Lemma rstrip_head s c r : rstrip s = c :: r → ∃ r', s = c :: r'.
Proof.
  destruct s as [|x s]; [done|]. cbn [rstrip].
  destruct (rstrip s); [destruct (isspace x)|]; intros [= <- _]; eauto.
Qed.

Lemma strip_nil_iff s : strip s = [] ↔ forallb isspace s = true.
Proof.
  unfold strip. rewrite <- lstrip_nil_iff.
  destruct (lstrip s) as [|c r] eqn:E; [done|].
  apply lstrip_head in E. rewrite rstrip_cons_nonspace by done.
  split; intros [=].
Qed.

(** A stripped string neither starts nor ends with whitespace. *)
Lemma strip_lstrip s : lstrip (strip s) = strip s.
Proof.
  unfold strip. destruct (rstrip (lstrip s)) as [|c r] eqn:E; [done|].
  apply rstrip_head in E as [r' E].
  apply lstrip_nonspace. by eapply lstrip_head.
Qed.

Lemma strip_rstrip s : rstrip (strip s) = strip s.
Proof. apply rstrip_idemp. Qed.

Lemma strip_fixed s : lstrip s = s → rstrip s = s → strip s = s.
Proof. unfold strip. by intros -> ->. Qed.

Lemma join_cons_cons sep x y l : join sep (x :: y :: l) = x ++ sep ++ join sep (y :: l).
Proof. done. Qed.

Lemma slice_to_nonneg {A} (l : list A) (n : nat) : slice_to l (Z.of_nat n) = take n l.
Proof.
  unfold slice_to. destruct (Z.ltb_spec (Z.of_nat n) 0); [lia|].
  by rewrite Nat2Z.id.
Qed.

(** Characters that do not end a line extend the current line. *)
Lemma splitlines_from_app cur a s :
  Forall (λ c, is_linebreak c = false) a →
  splitlines_from cur (a ++ s) = splitlines_from (cur ++ a) s.
Proof.
  intros Ha. revert cur. induction Ha as [|c a Hc Ha IH]; intros cur.
  - by rewrite app_nil_r.
  - cbn [app splitlines_from].
    assert ((c =? 13) = false) as ->.
    { apply N.eqb_neq. intros ->. done. }
    rewrite Hc, IH. by rewrite <- app_assoc.
Qed.

End strings.

(** ** What the effectful functions compute *)

Lemma log_spawn_one cmd w : log_spawn cmd w = log_spawns [cmd] w.
Proof. done. Qed.

Lemma log_spawns_nil w : log_spawns [] w = w.
Proof. destruct w. unfold log_spawns. cbn. by rewrite app_nil_r. Qed.

Lemma log_spawns_spawns l1 l2 w :
  log_spawns l2 (log_spawns l1 w) = log_spawns (l1 ++ l2) w.
Proof. unfold log_spawns. cbn. by rewrite app_assoc. Qed.

Lemma bind_Ok {A B} (m : M A) (k : A → M B) w a w' :
  m w = (Ok a, w') → (m ≫= k) w = k a w'.
Proof. intros H. unfold mbind, M_bind. by rewrite H. Qed.

Lemma bind_Raise {A B} (m : M A) (k : A → M B) w e w' :
  m w = (Raise e, w') → (m ≫= k) w = (Raise e, w').
Proof. intros H. unfold mbind, M_bind. by rewrite H. Qed.

Lemma run_eq cmd w : run cmd w = (Ok (run_result w cmd), log_spawns [cmd] w).
Proof. done. Qed.

Lemma current_branch_eq w :
  current_branch w = (Ok (run_result w branch_cmd), log_spawns [branch_cmd] w).
Proof. done. Qed.

Lemma commits_eq base head w :
  commits base head w
  = (Ok (run_result w (log_cmd base head)), log_spawns [log_cmd base head] w).
Proof. done. Qed.

Lemma changed_files_eq base head w :
  changed_files base head w
  = (Ok (run_result w (name_status_cmd base head)),
     log_spawns [name_status_cmd base head] w).
Proof. done. Qed.

Lemma truthy_true p : truthy p = true ↔ p ≠ [].
Proof. by destruct p. Qed.

Lemma patch_summary_loop_eq base head fs : ∀ out w,
  patch_summary_loop base head fs out w
  = (Ok (out ++ (block_of w base head <$> filter (has_diff w base head) fs)),
     log_spawns (file_diff_cmd base head <$> fs) w).
Proof.
  induction fs as [|f fs IH]; intros out w.
  - cbn. by rewrite app_nil_r, log_spawns_nil.
  - cbn [patch_summary_loop].
    erewrite bind_Ok by apply run_eq.
    fold (file_diff_cmd base head f). fold (file_diff w base head f).
    destruct (truthy (file_diff w base head f)) eqn:T.
    + rewrite IH, log_spawns_spawns.
      rewrite filter_cons_True by by apply truthy_true.
      cbn [fmap list_fmap]. by rewrite <- app_assoc.
    + rewrite IH, log_spawns_spawns.
      rewrite filter_cons_False; [done|].
      intros H. apply truthy_true in H. congruence.
Qed.

Lemma patch_summary_eq base head limit w :
  patch_summary base head limit w
  = (Ok (join (lit "
") (block_of w base head
        <$> filter (has_diff w base head)
              (slice_to (listed_files w base head) limit))),
     log_spawns (name_only_cmd base head
                 :: (file_diff_cmd base head
                     <$> slice_to (listed_files w base head) limit)) w).
Proof.
  unfold patch_summary. erewrite bind_Ok by apply run_eq.
  erewrite bind_Ok by apply patch_summary_loop_eq.
  cbn [app]. by rewrite log_spawns_spawns.
Qed.

Lemma read_template_eq w : read_template w = (Ok (template_of (files w)), w).
Proof.
  unfold read_template, template_paths, template_of.
  cbn [read_template_from].
  unfold mbind, M_bind, path_exists, path_read_text, mret, M_ret.
  destruct (files w !! lit ".pull_request_template.md") eqn:E1.
  { rewrite bool_decide_eq_true_2 by eauto. by rewrite E1. }
  rewrite bool_decide_eq_false_2 by (intros [? ?]; done).
  destruct (files w !! lit ".github/pull_request_template.md") eqn:E2.
  { rewrite bool_decide_eq_true_2 by eauto. by rewrite E2. }
  by rewrite bool_decide_eq_false_2 by (intros [? ?]; done).
Qed.

Lemma base_choice_eq (args : list str) w :
  (if bool_decide (1 < length args)%nat then py_index args 1 else mret (lit "main")) w
  = (Ok (base_ref args), w).
Proof.
  unfold base_ref, py_index. case_bool_decide as H.
  - destruct (lookup_lt_is_Some_2 args 1%nat H) as [b ->]. done.
  - rewrite lookup_ge_None_2 by lia. done.
Qed.

Lemma main_prompt_eq w :
  main_prompt w
  = (Ok (prompt_for w (base_ref (argv w))),
     log_spawns (commands_for w (base_ref (argv w))) w).
Proof.
  unfold main_prompt.
  erewrite (bind_Ok sys_argv) by reflexivity.
  erewrite bind_Ok by apply base_choice_eq.
  erewrite bind_Ok by apply current_branch_eq.
  erewrite bind_Ok by apply commits_eq.
  erewrite bind_Ok by apply changed_files_eq.
  erewrite bind_Ok by apply patch_summary_eq.
  erewrite bind_Ok by apply read_template_eq.
  erewrite (bind_Ok path_resolve_name) by reflexivity.
  unfold mret, M_ret. rewrite !log_spawns_spawns.
  unfold default_limit. change 10%Z with (Z.of_nat 10).
  rewrite !slice_to_nonneg.
  unfold prompt_for, commands_for, patches_for. f_equal.
Qed.

Lemma path_write_text_eq f content w :
  path_write_text f content w
  = if encodable content
    then (Ok (length content), store_file f content w)
    else (Raise UnicodeEncodeError, store_file f [] w).
Proof. reflexivity. Qed.

Lemma write_then {B} f content (k : nat → M B) w :
  (path_write_text f content ≫= k) w
  = if encodable content
    then k (length content) (store_file f content w)
    else (Raise UnicodeEncodeError, store_file f [] w).
Proof.
  unfold mbind, M_bind, path_write_text.
  destruct (encodable content); reflexivity.
Qed.

(** What [main] does, by whether the prompt can be encoded. *)
Lemma main_eq w :
  main w
  = if encodable (prompt_for w (base_ref (argv w)))
    then (Ok (),
          emit_line confirmation
            (store_file output_path (prompt_for w (base_ref (argv w)))
               (log_spawns (commands_for w (base_ref (argv w))) w)))
    else (Raise UnicodeEncodeError,
          store_file output_path []
            (log_spawns (commands_for w (base_ref (argv w))) w)).
Proof.
  unfold main. erewrite bind_Ok by apply main_prompt_eq.
  rewrite write_then. unfold print, confirmation.
  destruct (encodable (prompt_for w (base_ref (argv w)))); reflexivity.
Qed.

(** With an encodable prompt the script runs to its end: the partial
    operations [sys.argv[1]] and [read_text] are guarded. *)
Lemma main_returns w :
  encodable (prompt_for w (base_ref (argv w))) = true → value_of main w = Ok ().
Proof. intros H. unfold value_of. by rewrite main_eq, H. Qed.

(** ** The shape of the stripped prompt *)

Lemma prompt_text_body t r h b c f p :
  prompt_text t r h b c f p = [10] ++ prompt_body t r h b c f p ++ [10].
Proof.
  unfold prompt_text, prompt_body. rewrite <- !app_assoc.
  vm_compute. reflexivity.
Qed.

Lemma lstrip_app_fixed (a b : str) c a' :
  a = c :: a' → isspace c = false → lstrip (a ++ b) = a ++ b.
Proof. intros -> H. cbn [app]. by apply lstrip_nonspace. Qed.

Lemma rstrip_app_fixed (a b : str) :
  rstrip b = b → b ≠ [] → rstrip (a ++ b) = a ++ b.
Proof. intros H1 H2. rewrite rstrip_app; rewrite H1; done. Qed.

Lemma rstrip_snoc_space (a : str) c :
  isspace c = true → rstrip (a ++ [c]) = rstrip a.
Proof.
  intros H. induction a as [|x a IH]; cbn [app rstrip].
  - by rewrite H.
  - by rewrite IH.
Qed.

Lemma app_ne_nil_r (a b : str) : b ≠ [] → a ++ b ≠ [].
Proof. intros H E. by apply app_eq_nil in E as [_ E]. Qed.

(** [rstrip] leaves a concatenation alone when its last piece is a
    literal that does not end in whitespace. *)
Ltac rstrip_fixed :=
  repeat (apply rstrip_app_fixed; [|by repeat apply app_ne_nil_r]);
  vm_compute; reflexivity.

Lemma prompt_body_lstrip t r h b c f p :
  lstrip (prompt_body t r h b c f p) = prompt_body t r h b c f p.
Proof.
  unfold prompt_body. eapply lstrip_app_fixed; [vm_compute; reflexivity|done].
Qed.

Lemma prompt_body_rstrip t r h b c f p :
  rstrip (prompt_body t r h b c f p) = prompt_body t r h b c f p.
Proof. unfold prompt_body. rstrip_fixed. Qed.

Lemma strip_prompt_text t r h b c f p :
  strip (prompt_text t r h b c f p) = prompt_body t r h b c f p.
Proof.
  rewrite prompt_text_body. unfold strip. cbn [app].
  rewrite lstrip_space by done.
  assert (lstrip (prompt_body t r h b c f p ++ [10])
          = prompt_body t r h b c f p ++ [10]) as ->.
  { unfold prompt_body. rewrite <- !app_assoc.
    eapply lstrip_app_fixed; [vm_compute; reflexivity|done]. }
  rewrite rstrip_snoc_space by done. apply prompt_body_rstrip.
Qed.

(** ** Substrings in a given order *)

Lemma drop_prefix_Some p s r : drop_prefix p s = Some r ↔ s = p ++ r.
Proof.
  revert s. induction p as [|x p IH]; intros s; cbn.
  - split; [by intros [= ->]|by intros ->].
  - destruct s as [|y s]; [done|].
    destruct (N.eqb_spec x y) as [->|Hne].
    + rewrite IH. split; [by intros ->|by intros [= ->]].
    + split; [done|]. intros [= -> _]. done.
Qed.

Lemma after_first_sound p s r : after_first p s = Some r → ∃ a, s = a ++ p ++ r.
Proof.
  induction s as [|y s IH]; cbn [after_first].
  - destruct (drop_prefix p []) eqn:E; [|done].
    intros [= ->]. apply drop_prefix_Some in E. by exists [].
  - destruct (drop_prefix p (y :: s)) eqn:E.
    + intros [= ->]. apply drop_prefix_Some in E. by exists [].
    + intros H. destruct (IH H) as [a ->]. by exists (y :: a).
Qed.

(** The leftmost occurrence leaves the longest remainder. *)
Lemma after_first_complete p a r :
  ∃ d, after_first p (a ++ p ++ r) = Some (d ++ r).
Proof.
  induction a as [|y a IH].
  - exists []. cbn [app]. destruct (p ++ r) eqn:E; cbn [after_first];
      rewrite <- ?E; by rewrite (proj2 (drop_prefix_Some p (p ++ r) r) eq_refl).
  - cbn [app after_first].
    destruct (drop_prefix p (y :: a ++ p ++ r)) as [r'|] eqn:E; [|done].
    apply drop_prefix_Some in E. exists (take (length (y :: a)) r').
    assert (drop (length (y :: a)) r' = r) as Hd.
    { rewrite <- (drop_app_length p r'), <- E, drop_drop.
      rewrite Nat.add_comm, <- drop_drop.
      change (y :: a ++ p ++ r) with ((y :: a) ++ p ++ r).
      by rewrite !drop_app_length. }
    by rewrite <- Hd, take_drop.
Qed.

Lemma in_order_prepend ps d r : in_order ps r → in_order ps (d ++ r).
Proof.
  destruct ps as [|p ps]; [done|]. intros (a & r' & -> & H).
  exists (d ++ a), r'. by rewrite <- app_assoc.
Qed.

Lemma in_orderb_spec ps s : in_orderb ps s = true ↔ in_order ps s.
Proof.
  revert s. induction ps as [|p ps IH]; intros s; cbn [in_orderb in_order].
  - done.
  - split.
    + destruct (after_first p s) as [r|] eqn:E; [|done]. intros H.
      destruct (after_first_sound _ _ _ E) as [a ->].
      exists a, r. split; [done|]. by apply IH.
    + intros (a & r & -> & H).
      destruct (after_first_complete p a r) as [d ->].
      apply IH. by apply in_order_prepend.
Qed.

Lemma substring_in_order p s : substring p s ↔ in_order [p] s.
Proof.
  unfold substring. cbn. split.
  - intros (a & r & ->). by exists a, r.
  - intros (a & r & -> & _). by exists a, r.
Qed.

(** ** The patch summary *)

Example twelve_files_ten_blocks :
  ∃ out w', patch_summary_loop (lit "main") (lit "dev")
              (slice_to (listed_files twelve_files_world (lit "main") (lit "dev"))
                 default_limit) [] twelve_files_world = (Ok out, w')
    ∧ length out = 10%nat
    ∧ Forall (λ b, length b = (length (lit "
### src/f0.dart
```diff

```") + 1500)%nat) out
    ∧ utf8_size (take 1500 long_diff) = 3000%nat.
Proof.
  eexists _, _. split; [vm_compute; reflexivity|].
  split; [reflexivity|]. split; [|vm_compute; reflexivity].
  repeat constructor.
Qed.

Example gap_world_summary :
  value_of (patch_summary (lit "main") (lit "dev") default_limit) gap_world
  = Ok (lit "
### a.py
```diff
+a
```

### c.py
```diff
+c
```").
Proof. vm_compute. reflexivity. Qed.

(** C1. Whatever the references and the listing of changed paths, the
    patch summary is made of at most ten blocks, one for each of the
    first ten listed paths that has a diff, in listing order, and the
    diff body of each block is the first 1500 characters of the diff at
    most (characters, that is code points, are counted). *)
Theorem patch_summary_bounded w base head :
  let listing := listed_files w base head in
  let kept := filter (has_diff w base head) (take 10 listing) in
  value_of (patch_summary base head default_limit) w
  = Ok (join (lit "
") (block_of w base head <$> kept))
  ∧ (length (block_of w base head <$> kept) ≤ 10)%nat
  ∧ kept `sublist_of` take 10 listing
  ∧ Forall (λ f, ∃ body,
        block_of w base head f = lit "
### " ++ f ++ lit "
```diff
" ++ body ++ lit "
```"
        ∧ body = take 1500 (file_diff w base head f)
        ∧ body `prefix_of` file_diff w base head f
        ∧ (length body ≤ 1500)%nat) kept.
Proof.
  intros listing kept. repeat split.
  - unfold value_of. rewrite patch_summary_eq. unfold default_limit.
    change 10%Z with (Z.of_nat 10). by rewrite slice_to_nonneg.
  - rewrite length_fmap. unfold kept.
    etrans; [apply length_filter|]. rewrite length_take. lia.
  - apply sublist_filter.
  - apply Forall_forall. intros f _.
    exists (take 1500 (file_diff w base head f)).
    repeat split; [apply prefix_take|rewrite length_take; lia].
Qed.

(** C4. A path whose diff text is empty adds no block: the loop leaves
    [out] as it was for that path, so the summary is the one obtained
    without it, and the blocks of the summary are those of the paths
    that have a diff, whether or not the path is in the listing. *)
Theorem empty_diff_contributes_no_block w base head limit f :
  file_diff w base head f = [] →
  (∀ xs ys out,
     value_of (patch_summary_loop base head (xs ++ f :: ys) out) w
     = value_of (patch_summary_loop base head (xs ++ ys) out) w)
  ∧ (f ∉ filter (has_diff w base head)
            (slice_to (listed_files w base head) limit))
  ∧ value_of (patch_summary base head limit) w
    = Ok (join (lit "
") (block_of w base head
        <$> filter (has_diff w base head)
              (slice_to (listed_files w base head) limit))).
Proof.
  intros Hf. split; [|split].
  - intros xs ys out. unfold value_of. rewrite !patch_summary_loop_eq.
    cbn [fst]. rewrite !filter_app.
    rewrite filter_cons_False; [done|]. intros H. by apply H.
  - rewrite list_elem_of_filter. intros [H _]. by apply H.
  - unfold value_of. by rewrite patch_summary_eq.
Qed.

Lemma empty_diff_contributes_no_block_witness :
  file_diff gap_world (lit "main") (lit "dev") (lit "b.py") = []
  ∧ lit "b.py" ∈ listed_files gap_world (lit "main") (lit "dev")
  ∧ (lit "b.py" ∉ filter (has_diff gap_world (lit "main") (lit "dev"))
                     (slice_to (listed_files gap_world (lit "main") (lit "dev"))
                        default_limit)).
Proof.
  assert (file_diff gap_world (lit "main") (lit "dev") (lit "b.py") = []) as H
    by (vm_compute; reflexivity).
  split; [exact H|]. split.
  - vm_compute. apply list_elem_of_In. right. left. reflexivity.
  - exact (proj1 (proj2 (empty_diff_contributes_no_block
                           gap_world (lit "main") (lit "dev") default_limit
                           (lit "b.py") H))).
Defined.

(** ** The shell runner *)

(** C2, as stated, fails: a command that prints text and exits with
    status 1 has that text, stripped, handed back. *)
Lemma run_nonzero_exit_keeps_output : ¬ nonzero_exit_gives_empty.
Proof.
  intros H. specialize (H failing_world [lit "git"; lit "status"]).
  vm_compute in H. by specialize (H ltac:(discriminate)).
Qed.

(** C2, amended. After a non-zero exit status [run] still returns, and
    what it returns is the standard output of the command with leading
    and trailing whitespace removed, the same text a zero status would
    give; it is the empty string exactly when the command wrote nothing
    but whitespace to standard output. *)
Theorem run_ignores_exit_status w cmd :
  returncode (os_exec w cmd) ≠ 0%Z →
  value_of (run cmd) w = Ok (strip (stdout (os_exec w cmd)))
  ∧ (value_of (run cmd) w = Ok []
     ↔ forallb isspace (stdout (os_exec w cmd)) = true)
  ∧ ∀ w', stdout (os_exec w' cmd) = stdout (os_exec w cmd) →
          value_of (run cmd) w' = value_of (run cmd) w.
Proof.
  intros _. unfold value_of. rewrite run_eq. cbn [fst]. unfold run_result.
  split; [done|]. split.
  - rewrite <- strip_nil_iff. split; [by intros [= ->]|by intros ->].
  - intros w' H. rewrite run_eq. cbn [fst]. unfold run_result. by rewrite H.
Qed.

Lemma run_ignores_exit_status_witness :
  returncode (os_exec failing_world [lit "git"; lit "status"]) ≠ 0%Z
  ∧ value_of (run [lit "git"; lit "status"]) failing_world
    = Ok (lit "partial output").
Proof.
  assert (returncode (os_exec failing_world [lit "git"; lit "status"]) ≠ 0%Z)
    as H by (vm_compute; discriminate).
  split; [exact H|].
  exact (proj1 (run_ignores_exit_status failing_world
                  [lit "git"; lit "status"] H)).
Defined.

(** ** The prompt and the output file *)

Lemma prompt_for_body w base :
  prompt_for w base
  = prompt_body (template_of (files w)) (cwd_name w)
      (run_result w branch_cmd) base
      (run_result w (log_cmd base (run_result w branch_cmd)))
      (run_result w (name_status_cmd base (run_result w branch_cmd)))
      (patches_for w base (run_result w branch_cmd)).
Proof. unfold prompt_for. cbv zeta. by rewrite strip_prompt_text. Qed.

(** The prompt and the commands depend on the world only through the
    command outcomes, the files and the directory name. *)
Lemma prompt_for_ext w1 w2 base :
  os_exec w1 = os_exec w2 → files w1 = files w2 → cwd_name w1 = cwd_name w2 →
  prompt_for w1 base = prompt_for w2 base.
Proof.
  destruct w1, w2. cbn [os_exec files cwd_name]. intros -> -> ->.
  rewrite !prompt_for_body. f_equal.
Qed.

Lemma commands_for_ext w1 w2 base :
  os_exec w1 = os_exec w2 → commands_for w1 base = commands_for w2 base.
Proof.
  destruct w1, w2. cbn [os_exec]. intros ->. unfold commands_for. f_equal.
Qed.

Lemma prompt_for_template_ext w1 w2 base :
  os_exec w1 = os_exec w2 → cwd_name w1 = cwd_name w2 →
  template_of (files w1) = template_of (files w2) →
  prompt_for w1 base = prompt_for w2 base.
Proof.
  destruct w1, w2. cbn [os_exec files cwd_name]. intros -> -> Ht.
  rewrite !prompt_for_body. cbn [files cwd_name]. rewrite Ht. f_equal.
Qed.

Lemma output_path_fresh :
  output_path ≠ lit ".pull_request_template.md"
  ∧ output_path ≠ lit ".github/pull_request_template.md".
Proof. split; intros H; vm_compute in H; discriminate H. Qed.

Lemma template_of_insert_output (old : str) (fs : gmap str str) :
  template_of (<[output_path := old]> fs) = template_of fs.
Proof.
  destruct output_path_fresh as [H1 H2]. unfold template_of.
  pose proof (lookup_insert_ne fs _ _ old H1) as E1.
  pose proof (lookup_insert_ne fs _ _ old H2) as E2.
  rewrite E1, E2. reflexivity.
Qed.

(** The files after a run: the output file holds the prompt, or nothing
    when the prompt cannot be encoded. *)
Lemma main_files_after w :
  files (world_after main w)
  = <[output_path := if encodable (prompt_for w (base_ref (argv w)))
                     then prompt_for w (base_ref (argv w)) else []]> (files w).
Proof.
  unfold world_after. rewrite main_eq.
  destruct (encodable (prompt_for w (base_ref (argv w)))); reflexivity.
Qed.

Lemma main_file_after w :
  encodable (prompt_for w (base_ref (argv w))) = true →
  files (world_after main w) !! output_path
  = Some (prompt_for w (base_ref (argv w))).
Proof. intros H. rewrite main_files_after, H. apply lookup_insert_eq. Qed.

Lemma main_other_files w f :
  f ≠ output_path → files (world_after main w) !! f = files w !! f.
Proof. intros H. rewrite main_files_after. by apply lookup_insert_ne. Qed.

Lemma main_spawned w :
  spawned (world_after main w)
  = spawned w ++ commands_for w (base_ref (argv w)).
Proof.
  unfold world_after. rewrite main_eq.
  destruct (encodable (prompt_for w (base_ref (argv w)))); reflexivity.
Qed.

Lemma main_keeps_environment w :
  argv (world_after main w) = argv w
  ∧ os_exec (world_after main w) = os_exec w
  ∧ cwd_name (world_after main w) = cwd_name w.
Proof.
  unfold world_after. rewrite main_eq.
  destruct (encodable (prompt_for w (base_ref (argv w)))); done.
Qed.

Lemma main_console w :
  console (world_after main w)
  = if encodable (prompt_for w (base_ref (argv w)))
    then console w ++ [confirmation] else console w.
Proof.
  unfold world_after. rewrite main_eq.
  destruct (encodable (prompt_for w (base_ref (argv w)))); reflexivity.
Qed.

Lemma main_prompt_value w :
  value_of main_prompt w = Ok (prompt_for w (base_ref (argv w))).
Proof. unfold value_of. by rewrite main_prompt_eq. Qed.

(** C5. [read_template] looks at two fixed relative paths in order and
    returns the content of the first that exists, or else the fallback
    template with its two headings; the text it returns stands verbatim
    inside the prompt that is assembled, and so inside the output file
    once the prompt is written (which asks for a prompt that can be
    encoded). *)
Theorem template_loaded_verbatim w :
  template_paths
  = [lit ".pull_request_template.md"; lit ".github/pull_request_template.md"]
  ∧ splitlines fallback_template = [lit "# Problema"; []; lit "## Solução"]
  ∧ ∃ t, value_of read_template w = Ok t
      ∧ world_after read_template w = w
      ∧ t = match files w !! lit ".pull_request_template.md" with
            | Some content => content
            | None =>
                match files w !! lit ".github/pull_request_template.md" with
                | Some content => content
                | None => lit "# Problema

## Solução
"
                end
            end
      ∧ ∃ p, value_of main_prompt w = Ok p
          ∧ substring t p
          ∧ (encodable p = true →
             files (world_after main w) !! output_path = Some p).
Proof.
  split; [done|]. split; [vm_compute; reflexivity|].
  exists (template_of (files w)).
  unfold value_of at 1. unfold world_after at 1. rewrite read_template_eq.
  split; [done|]. split; [done|]. split; [done|].
  exists (prompt_for w (base_ref (argv w))).
  split; [apply main_prompt_value|]. split; [|apply main_file_after].
  rewrite prompt_for_body. unfold prompt_body, substring. eauto.
Qed.

(** C8. Whatever the output file held before, the run assembles the
    same prompt and leaves the other files alone; when the prompt can
    be encoded the run completes and the file then holds exactly that
    prompt, and a second run leaves the prompt of the second run. *)
Theorem output_file_overwritten w old :
  let w0 := store_file output_path old w in
  ∃ p, value_of main_prompt w0 = Ok p
    ∧ value_of main_prompt w = Ok p
    ∧ (∀ f, f ≠ output_path → files (world_after main w0) !! f = files w !! f)
    ∧ (encodable p = true →
       value_of main w0 = Ok ()
       ∧ files (world_after main w0) !! output_path = Some p
       ∧ files (world_after main w) !! output_path = Some p
       ∧ ∃ p2, value_of main_prompt (world_after main w0) = Ok p2
            ∧ files (world_after main (world_after main w0)) !! output_path
              = Some p2).
Proof.
  intros w0. exists (prompt_for w (base_ref (argv w))).
  assert (prompt_for w0 (base_ref (argv w0)) = prompt_for w (base_ref (argv w)))
    as E.
  { unfold prompt_for, w0. cbn [store_file files cwd_name argv].
    rewrite template_of_insert_output. f_equal. }
  split; [by rewrite main_prompt_value, E|].
  split; [apply main_prompt_value|]. split.
  - intros f Hf. rewrite main_other_files by done.
    unfold w0. cbn [store_file files]. by rewrite lookup_insert_ne.
  - intros Hp.
    assert (encodable (prompt_for w0 (base_ref (argv w0))) = true) as Hp0
      by by rewrite E.
    split; [by apply main_returns|].
    split; [by rewrite main_file_after, E|].
    split; [by apply main_file_after|].
    exists (prompt_for w (base_ref (argv w))).
    destruct (main_keeps_environment w0) as (Ea & He & Hc).
    assert (prompt_for (world_after main w0) (base_ref (argv (world_after main w0)))
            = prompt_for w (base_ref (argv w))) as E2.
    { rewrite Ea, <- E. apply prompt_for_template_ext; [done|done|].
      rewrite main_files_after. apply template_of_insert_output. }
    split; [by rewrite main_prompt_value, E2|].
    rewrite main_file_after; by rewrite E2.
Qed.

(** C9. The prompt the script writes is the stripped document: it starts
    with the first letter of the instruction text, ends with the full
    stop that closes it, and stripping it again on either side changes
    nothing; when it can be encoded it is what the output file holds
    after the run. *)
Theorem written_prompt_is_stripped w :
  ∃ p, value_of main_prompt w = Ok p
    ∧ lstrip p = p ∧ rstrip p = p ∧ strip p = p
    ∧ (∃ c, head p = Some c ∧ isspace c = false)
    ∧ (∃ c, last p = Some c ∧ isspace c = false)
    ∧ lit "Você é um engenheiro experiente" `prefix_of` p
    ∧ lit "sem comentários extras." `suffix_of` p
    ∧ (encodable p = true →
       files (world_after main w) !! output_path = Some p).
Proof.
  exists (prompt_for w (base_ref (argv w))).
  split; [apply main_prompt_value|].
  assert (encodable (prompt_for w (base_ref (argv w))) = true →
          files (world_after main w) !! output_path
          = Some (prompt_for w (base_ref (argv w)))) as Hfile
    by apply main_file_after.
  revert Hfile. rewrite prompt_for_body.
  set (p := prompt_body _ _ _ _ _ _ _). intros Hfile.
  assert (lit "Você é um engenheiro experiente" `prefix_of` p) as Hpre.
  { unfold p, prompt_body.
    match goal with
    | |- ?pre `prefix_of` ?l0 ++ ?x =>
        exists (drop (length pre) l0 ++ x);
        transitivity ((pre ++ drop (length pre) l0) ++ x);
        [apply (f_equal (λ l, l ++ x)); vm_compute; reflexivity
        |exact (eq_sym (app_assoc _ _ _))]
    end. }
  assert (lit "sem comentários extras." `suffix_of` p) as Hsuf.
  { unfold p, prompt_body. repeat apply suffix_app_r.
    match goal with
    | |- ?suf `suffix_of` ?l =>
        exists (take (length l - length suf) l)
    end. vm_compute. reflexivity. }
  assert (lstrip p = p) as Hl by apply prompt_body_lstrip.
  assert (rstrip p = p) as Hr by apply prompt_body_rstrip.
  clearbody p.
  split; [exact Hl|]. split; [exact Hr|].
  split; [by apply strip_fixed|].
  split; [|split; [|split; [exact Hpre|split; [exact Hsuf|exact Hfile]]]].
  - destruct Hpre as [k ->].
    assert (∃ r, lit "Você é um engenheiro experiente" = 86 :: r) as [r ->]
      by (eexists; vm_compute; reflexivity).
    exists 86. split; reflexivity.
  - destruct Hsuf as [k ->].
    assert (∃ r, lit "sem comentários extras." = r ++ [46]) as [r ->].
    { exists (take 22 (lit "sem comentários extras.")).
      vm_compute. reflexivity. }
    exists 46. split; [|reflexivity]. rewrite app_assoc. apply last_snoc.
Qed.

(** ** The command line *)

Lemma base_ref_default (args : list str) :
  (length args ≤ 1)%nat → base_ref args = lit "main".
Proof. intros H. unfold base_ref. by rewrite lookup_ge_None_2. Qed.

(** C7. Run without argument, the script takes [main] as base
    reference: the prompt is the one for base [main], every git command
    after the branch query is given the range [main..head], and the
    prompt for base [main] is what the output file holds once it is
    written (which asks for a prompt that can be encoded). *)
Theorem default_base_is_main w :
  (length (argv w) ≤ 1)%nat →
  let head := run_result w branch_cmd in
  let range := lit "main" ++ lit ".." ++ head in
  value_of main_prompt w = Ok (prompt_for w (lit "main"))
  ∧ (encodable (prompt_for w (lit "main")) = true →
     files (world_after main w) !! output_path = Some (prompt_for w (lit "main")))
  ∧ spawned (world_after main w)
    = spawned w
      ++ [[lit "git"; lit "rev-parse"; lit "--abbrev-ref"; lit "HEAD"];
          [lit "git"; lit "log"; lit "--pretty=format:- %s"; range];
          [lit "git"; lit "diff"; lit "--name-status"; range];
          [lit "git"; lit "diff"; lit "--name-only"; range]]
      ++ ((λ f, [lit "git"; lit "diff"; range; lit "--"; f])
          <$> take 10 (listed_files w (lit "main") head)).
Proof.
  intros H head range. pose proof (base_ref_default _ H) as E.
  split; [|split].
  - by rewrite main_prompt_value, E.
  - intros Hp. rewrite main_file_after; by rewrite E.
  - rewrite main_spawned, E. reflexivity.
Qed.

Lemma default_base_is_main_witness :
  (length (argv gap_world) ≤ 1)%nat
  ∧ value_of main_prompt gap_world = Ok (prompt_for gap_world (lit "main"))
  ∧ files (world_after main gap_world) !! output_path
    = Some (prompt_for gap_world (lit "main")).
Proof.
  assert (length (argv gap_world) ≤ 1)%nat as H by (vm_compute; lia).
  destruct (default_base_is_main gap_world H) as (Hp & Hf & _).
  split; [exact H|]. split; [exact Hp|].
  apply Hf. vm_compute. reflexivity.
Defined.

(** C10. Only [sys.argv[1]] is read: two invocations that agree on it
    (both lack it, or both have the same one) and on the command
    outcomes, the files and the directory assemble the same prompt, run
    the same commands and write the same file, whatever further
    arguments follow. *)
Theorem extra_arguments_ignored w1 w2 :
  argv w1 !! 1%nat = argv w2 !! 1%nat →
  os_exec w1 = os_exec w2 → files w1 = files w2 → cwd_name w1 = cwd_name w2 →
  value_of main_prompt w1 = value_of main_prompt w2
  ∧ files (world_after main w1) = files (world_after main w2)
  ∧ commands_for w1 (base_ref (argv w1)) = commands_for w2 (base_ref (argv w2)).
Proof.
  intros Ha He Hf Hc.
  assert (base_ref (argv w1) = base_ref (argv w2)) as Eb
    by (unfold base_ref; by rewrite Ha).
  pose proof (prompt_for_ext w1 w2 (base_ref (argv w2)) He Hf Hc) as Ep.
  split; [|split].
  - by rewrite !main_prompt_value, Eb, Ep.
  - by rewrite !main_files_after, Eb, Ep, Hf.
  - rewrite Eb. by apply commands_for_ext.
Qed.

Lemma extra_arguments_ignored_witness :
  value_of main_prompt
    (dev_world [lit "generate_pr.py"; lit "main"; lit "--verbose"; lit "x"])
  = value_of main_prompt (dev_world [lit "generate_pr.py"; lit "main"]).
Proof.
  exact (proj1 (extra_arguments_ignored
                  (dev_world [lit "generate_pr.py"; lit "main";
                              lit "--verbose"; lit "x"])
                  (dev_world [lit "generate_pr.py"; lit "main"])
                  eq_refl eq_refl eq_refl eq_refl)).
Defined.

(** ** The example run of the specification *)

Lemma example_run :
  main example_world
  = (Ok (),
     emit_line confirmation
       (store_file output_path example_prompt
          (log_spawns
             [branch_cmd; log_cmd (lit "main") (lit "feature-x");
              name_status_cmd (lit "main") (lit "feature-x");
              name_only_cmd (lit "main") (lit "feature-x");
              file_diff_cmd (lit "main") (lit "feature-x") (lit "a.py")]
             example_world))).
Proof.
  rewrite main_eq.
  assert (prompt_for example_world (base_ref (argv example_world))
          = example_prompt) as -> by (vm_compute; reflexivity).
  assert (encodable example_prompt = true) as -> by (vm_compute; reflexivity).
  assert (commands_for example_world (base_ref (argv example_world))
          = [branch_cmd; log_cmd (lit "main") (lit "feature-x");
             name_status_cmd (lit "main") (lit "feature-x");
             name_only_cmd (lit "main") (lit "feature-x");
             file_diff_cmd (lit "main") (lit "feature-x") (lit "a.py")]) as ->
    by (vm_compute; reflexivity).
  reflexivity.
Qed.

Lemma example_prompt_value : value_of main_prompt example_world = Ok example_prompt.
Proof.
  rewrite main_prompt_value. apply (f_equal Ok). vm_compute. reflexivity.
Qed.

Lemma template_loaded_verbatim_witness :
  ∃ p, files (world_after main example_world) !! output_path = Some p
    ∧ substring example_template p.
Proof.
  destruct (template_loaded_verbatim example_world)
    as (_ & _ & t & Ht & _ & _ & p & Hp & Hs & Hf).
  exists p. split.
  - apply Hf. rewrite example_prompt_value in Hp. injection Hp as <-.
    vm_compute. reflexivity.
  - assert (t = example_template) as <-; [|exact Hs].
    unfold value_of in Ht. rewrite read_template_eq in Ht.
    injection Ht as <-. vm_compute. reflexivity.
Defined.

Lemma output_file_overwritten_witness :
  files (world_after main (store_file output_path (lit "old prompt") example_world))
    !! output_path
  = Some example_prompt.
Proof.
  destruct (output_file_overwritten example_world (lit "old prompt"))
    as (p & _ & Hp & _ & H).
  rewrite example_prompt_value in Hp. injection Hp as <-.
  apply H. vm_compute. reflexivity.
Defined.

Lemma written_prompt_is_stripped_witness :
  files (world_after main example_world) !! output_path = Some example_prompt
  ∧ lstrip example_prompt = example_prompt
  ∧ rstrip example_prompt = example_prompt.
Proof.
  destruct (written_prompt_is_stripped example_world)
    as (p & Hp & Hl & Hr & _ & _ & _ & _ & _ & Hf).
  rewrite example_prompt_value in Hp. injection Hp as <-.
  split; [|split; [exact Hl|exact Hr]].
  apply Hf. vm_compute. reflexivity.
Defined.

Lemma example_diff_lines : length (splitlines example_diff) = 10%nat.
Proof. vm_compute. reflexivity. Qed.

(** C3, as stated, fails: in the prompt the template comes first, and
    its text does not occur again after the diff. *)
Lemma example_order_as_specified_fails : ¬ example_order_as_specified.
Proof.
  intros (p & Hp & H). rewrite example_prompt_value in Hp.
  injection Hp as <-. apply in_orderb_spec in H.
  vm_compute in H. discriminate H.
Qed.

(** C3, amended. In the example run the prompt contains the template
    content, "- Fix bug", "- Add test", "a.py" and the full diff text,
    in this order; each of the five is a substring of the prompt, and
    the prompt is what the output file holds afterwards. *)
Theorem example_prompt_order :
  ∃ p, value_of main_prompt example_world = Ok p
    ∧ files (world_after main example_world) !! output_path = Some p
    ∧ in_order [example_template; lit "- Fix bug"; lit "- Add test";
                lit "a.py"; example_diff] p
    ∧ Forall (λ part, substring part p)
        [lit "- Fix bug"; lit "- Add test"; lit "a.py"; example_diff;
         example_template].
Proof.
  exists example_prompt. split; [apply example_prompt_value|].
  split.
  { rewrite main_file_after by (vm_compute; reflexivity).
    apply (f_equal Some). vm_compute. reflexivity. }
  split.
  { apply in_orderb_spec. vm_compute. reflexivity. }
  repeat (apply Forall_cons; split;
          [cbv beta; apply substring_in_order; apply in_orderb_spec;
           vm_compute; reflexivity|]).
  apply Forall_nil. exact I.
Qed.

(** ** The commit list *)

Lemma bullet_inj : Inj (=) (=) bullet.
Proof. intros x y H. unfold bullet in H. by apply app_inv_head in H. Qed.

Lemma bullet_rstrip s : s ≠ [] → rstrip s = s → rstrip (bullet s) = bullet s.
Proof. intros H1 H2. unfold bullet. by apply rstrip_app_fixed. Qed.

Lemma bullet_cons s : ∃ r, bullet s = 45 :: r.
Proof. unfold bullet. eexists. vm_compute. reflexivity. Qed.

Lemma bullet_no_linebreak s :
  Forall (λ c, is_linebreak c = false) s →
  Forall (λ c, is_linebreak c = false) (bullet s).
Proof.
  intros H. unfold bullet. apply Forall_app. split; [|done].
  vm_compute. by repeat constructor.
Qed.

Lemma join_rstrip_fixed sep (l : list str) :
  l ≠ [] → Forall (λ x, rstrip x = x ∧ x ≠ []) l →
  rstrip (join sep l) = join sep l ∧ join sep l ≠ [].
Proof.
  intros Hl H. induction H as [|x l [Hx1 Hx2] H IH]; [done|].
  destruct l as [|y l]; [done|].
  destruct (IH ltac:(done)) as [IH1 IH2]. rewrite join_cons_cons.
  split.
  - apply rstrip_app_fixed; [|by repeat apply app_ne_nil_r].
    by apply rstrip_app_fixed.
  - by repeat apply app_ne_nil_r.
Qed.

Lemma splitlines_line (x : str) :
  x ≠ [] → Forall (λ c, is_linebreak c = false) x →
  splitlines_from [] x = [x].
Proof.
  intros H1 H2. rewrite <- (app_nil_r x) at 1.
  rewrite splitlines_from_app by done. cbn [app splitlines_from].
  by destruct x.
Qed.

Lemma splitlines_join (l : list str) :
  Forall (λ x, x ≠ [] ∧ Forall (λ c, is_linebreak c = false) x) l →
  splitlines (join [10] l) = l.
Proof.
  unfold splitlines. induction 1 as [|x l [Hx1 Hx2] H IH]; [done|].
  destruct l as [|y l]; [by apply splitlines_line|].
  rewrite join_cons_cons, splitlines_from_app by done.
  cbn [app splitlines_from]. by rewrite IH.
Qed.

Lemma git_log_stdout_strip subjects :
  Forall clean_subject subjects →
  strip (git_log_stdout subjects) = git_log_stdout subjects.
Proof.
  intros H. unfold git_log_stdout.
  destruct subjects as [|s subjects]; [done|].
  apply strip_fixed.
  - destruct (bullet_cons s) as [r Hr]. cbn [fmap list_fmap].
    destruct (bullet <$> subjects);
      [cbn [join]|rewrite join_cons_cons]; rewrite Hr; by apply lstrip_nonspace.
  - apply join_rstrip_fixed; [done|]. apply Forall_fmap.
    eapply Forall_impl; [exact H|]. intros x (Hx1 & Hx2 & _). split.
    + by apply bullet_rstrip.
    + unfold bullet. by apply app_ne_nil_r.
Qed.

Example empty_subject_loses_space :
  stdout (os_exec blank_world (log_cmd (lit "main") (lit "dev")))
  = git_log_stdout [lit "Add test"; []]
  ∧ value_of (commits (lit "main") (lit "dev")) blank_world = Ok (lit "- Add test
-").
Proof. split; vm_compute; reflexivity. Qed.

(** C6, as stated, fails: two commits with the same subject give two
    equal lines. *)
Lemma commit_lines_as_specified_fails : ¬ commit_lines_as_specified.
Proof.
  intros H.
  destruct (H twin_world (lit "main") (lit "dev") [lit "Fix bug"; lit "Fix bug"])
    as (txt & Ht & _ & Hn); [vm_compute; reflexivity|].
  vm_compute in Ht. injection Ht as <-. vm_compute in Hn.
  apply NoDup_cons in Hn as [Hn _]. apply Hn. left.
Qed.

(** C6, amended. When the tool reports the commits of the range by their
    subjects, each a non-empty line that does not end in whitespace,
    [commits] returns one line per commit, in the order of the tool, the
    line of a commit being [- ] followed by its subject; two lines are
    equal exactly when two commits have the same subject. *)
Theorem commit_lines_follow_subjects w base head subjects :
  stdout (os_exec w (log_cmd base head)) = git_log_stdout subjects →
  Forall clean_subject subjects →
  ∃ txt, value_of (commits base head) w = Ok txt
    ∧ splitlines txt = (λ s, lit "- " ++ s) <$> subjects
    ∧ length (splitlines txt) = length subjects
    ∧ (NoDup (splitlines txt) ↔ NoDup subjects).
Proof.
  intros Hout Hclean. exists (git_log_stdout subjects).
  assert (splitlines (git_log_stdout subjects) = bullet <$> subjects) as E.
  { apply splitlines_join, Forall_fmap.
    eapply Forall_impl; [exact Hclean|]. intros x (Hx1 & _ & Hx3). split.
    - unfold bullet. by apply app_ne_nil_r.
    - by apply bullet_no_linebreak. }
  split; [|split; [exact E|split]].
  - unfold value_of. rewrite commits_eq. cbn [fst]. unfold run_result.
    by rewrite Hout, git_log_stdout_strip.
  - by rewrite E, length_fmap.
  - rewrite E. apply NoDup_fmap, bullet_inj.
Qed.

Lemma commit_lines_follow_subjects_witness :
  ∃ txt, value_of (commits (lit "main") (lit "feature-x")) example_world = Ok txt
    ∧ splitlines txt = [lit "- Fix bug"; lit "- Add test"].
Proof.
  assert (stdout (os_exec example_world (log_cmd (lit "main") (lit "feature-x")))
          = git_log_stdout [lit "Fix bug"; lit "Add test"]) as H1
    by (vm_compute; reflexivity).
  assert (Forall clean_subject [lit "Fix bug"; lit "Add test"]) as H2.
  { repeat (apply Forall_cons; split; [|]); [| |by apply Forall_nil].
    all: (split; [vm_compute; discriminate|]);
      (split; [vm_compute; reflexivity|]);
      vm_compute; by repeat constructor. }
  destruct (commit_lines_follow_subjects example_world (lit "main")
              (lit "feature-x") [lit "Fix bug"; lit "Add test"] H1 H2)
    as (txt & Ht & Hl & _).
  exists txt. split; [exact Ht|]. rewrite Hl. vm_compute. reflexivity.
Defined.

(** ** More about the shell runner *)

Lemma lstrip_split (s : str) :
  ∃ a, s = a ++ lstrip s ∧ forallb isspace a = true.
Proof.
  induction s as [|c s (a & E & Ha)]; [by exists []|].
  cbn [lstrip]. destruct (isspace c) eqn:Hc.
  - exists (c :: a). cbn [app forallb]. rewrite Hc, Ha. by rewrite <- E.
  - by exists [].
Qed.

Lemma rstrip_split (s : str) :
  ∃ b, s = rstrip s ++ b ∧ forallb isspace b = true.
Proof.
  induction s as [|c s (b & E & Hb)]; [by exists []|].
  cbn [rstrip]. destruct (rstrip s) as [|y r] eqn:Er.
  - cbn [app] in E. subst s. destruct (isspace c) eqn:Hc.
    + exists (c :: b). cbn [app forallb]. by rewrite Hc, Hb.
    + by exists b.
  - exists b. split; [|done]. cbn [app]. by rewrite E at 1.
Qed.

Lemma strip_split (s : str) :
  ∃ a b, s = a ++ strip s ++ b
    ∧ forallb isspace a = true ∧ forallb isspace b = true.
Proof.
  destruct (lstrip_split s) as (a & Ea & Ha).
  destruct (rstrip_split (lstrip s)) as (b & Eb & Hb).
  exists a, b. unfold strip. by rewrite <- Eb, <- Ea.
Qed.

(** X1. [run] hands back a contiguous part of what the command wrote
    to standard output: only whitespace at the two ends is dropped, and
    the result neither starts nor ends with whitespace.  The call adds
    its command line to the log and leaves files and console alone. *)
Theorem run_trims_only_the_ends w cmd :
  ∃ r a b, value_of (run cmd) w = Ok r
    ∧ stdout (os_exec w cmd) = a ++ r ++ b
    ∧ forallb isspace a = true ∧ forallb isspace b = true
    ∧ lstrip r = r ∧ rstrip r = r
    ∧ spawned (world_after (run cmd) w) = spawned w ++ [cmd]
    ∧ files (world_after (run cmd) w) = files w
    ∧ console (world_after (run cmd) w) = console w.
Proof.
  destruct (strip_split (stdout (os_exec w cmd))) as (a & b & E & Ha & Hb).
  exists (strip (stdout (os_exec w cmd))), a, b.
  unfold value_of, world_after. rewrite run_eq. cbn [fst snd].
  split; [done|]. split; [exact E|]. split; [exact Ha|]. split; [exact Hb|].
  split; [apply strip_lstrip|]. split; [apply strip_rstrip|]. done.
Qed.

Lemma strip_newline_terminated (s : str) :
  lstrip s = s → rstrip s = s → strip (s ++ [10]) = s.
Proof.
  intros Hl Hr. unfold strip. destruct s as [|c s].
  - reflexivity.
  - assert (isspace c = false) as Hc by by eapply lstrip_head.
    cbn [app]. rewrite lstrip_nonspace by done.
    change (c :: s ++ [10]) with ((c :: s) ++ [10]).
    by rewrite rstrip_snoc_space.
Qed.

(** X2. When git prints the branch name followed by a newline, and the
    name has no whitespace at its ends, [current_branch] returns the
    name without the newline. *)
Theorem current_branch_drops_newline w name :
  stdout (os_exec w branch_cmd) = name ++ [10] →
  lstrip name = name → rstrip name = name →
  value_of current_branch w = Ok name.
Proof.
  intros E Hl Hr. unfold value_of. rewrite current_branch_eq. cbn [fst].
  unfold run_result. by rewrite E, strip_newline_terminated.
Qed.

Lemma current_branch_drops_newline_witness :
  value_of current_branch example_world = Ok (lit "feature-x").
Proof.
  apply (current_branch_drops_newline example_world (lit "feature-x"));
    vm_compute; reflexivity.
Defined.

(** ** Lines printed by the tool and lines read back *)

Lemma clean_line_rstrip_fixed (ls : list str) :
  Forall clean_line ls → Forall (λ x, rstrip x = x ∧ x ≠ []) ls.
Proof.
  intros H. eapply Forall_impl; [exact H|]. by intros x (H1 & _ & H3 & _).
Qed.

Lemma clean_line_splittable (ls : list str) :
  Forall clean_line ls →
  Forall (λ x, x ≠ [] ∧ Forall (λ c, is_linebreak c = false) x) ls.
Proof.
  intros H. eapply Forall_impl; [exact H|]. by intros x (H1 & _ & _ & H4).
Qed.

Lemma join_lstrip_fixed sep (x : str) (ls : list str) :
  x ≠ [] → lstrip x = x → lstrip (join sep (x :: ls)) = join sep (x :: ls).
Proof.
  intros Hx Hl. destruct x as [|c x]; [done|].
  assert (isspace c = false) as Hc by by eapply lstrip_head.
  destruct ls as [|y ls]; [exact Hl|].
  rewrite join_cons_cons. cbn [app]. by apply lstrip_nonspace.
Qed.

Lemma strip_printed_lines (ls : list str) :
  Forall clean_line ls → strip (printed_lines ls) = join [10] ls.
Proof.
  intros H. destruct ls as [|x ls]; [reflexivity|].
  unfold printed_lines. apply strip_newline_terminated.
  - apply Forall_cons in H as [(Hx & Hl & _) _]. by apply join_lstrip_fixed.
  - by apply join_rstrip_fixed, clean_line_rstrip_fixed.
Qed.

Lemma lines_read_back (ls : list str) :
  Forall clean_line ls → splitlines (strip (printed_lines ls)) = ls.
Proof.
  intros H. rewrite strip_printed_lines by done.
  by apply splitlines_join, clean_line_splittable.
Qed.

(** X3. When git prints one status line per changed path, each closed
    by a newline, [changed_files] returns these lines joined by
    newlines, without the last newline: splitting the result gives the
    status lines back, one per path, in order. *)
Theorem changed_files_keeps_status_lines w base head (ls : list str) :
  stdout (os_exec w (name_status_cmd base head)) = printed_lines ls →
  Forall clean_line ls →
  ∃ txt, value_of (changed_files base head) w = Ok txt
    ∧ txt = join [10] ls
    ∧ splitlines txt = ls.
Proof.
  intros E H. exists (join [10] ls).
  unfold value_of. rewrite changed_files_eq. cbn [fst]. unfold run_result.
  rewrite E, strip_printed_lines by done.
  split; [done|]. split; [done|]. by apply splitlines_join, clean_line_splittable.
Qed.

Lemma changed_files_keeps_status_lines_witness :
  ∃ txt, value_of (changed_files (lit "main") (lit "dev")) status_world = Ok txt
    ∧ txt = lit "M" ++ [9] ++ lit "a.py
A" ++ [9] ++ lit "b.py"
    ∧ splitlines txt = [lit "M" ++ [9] ++ lit "a.py"; lit "A" ++ [9] ++ lit "b.py"].
Proof.
  assert (stdout (os_exec status_world (name_status_cmd (lit "main") (lit "dev")))
          = printed_lines [lit "M" ++ [9] ++ lit "a.py";
                           lit "A" ++ [9] ++ lit "b.py"]) as H1
    by (vm_compute; reflexivity).
  assert (Forall clean_line [lit "M" ++ [9] ++ lit "a.py";
                             lit "A" ++ [9] ++ lit "b.py"]) as H2.
  { repeat (apply Forall_cons; split; [|]); [| |by apply Forall_nil].
    all: (split; [vm_compute; discriminate|]);
      (split; [vm_compute; reflexivity|]);
      (split; [vm_compute; reflexivity|]);
      vm_compute; by repeat constructor. }
  destruct (changed_files_keeps_status_lines status_world (lit "main")
              (lit "dev") [lit "M" ++ [9] ++ lit "a.py";
                           lit "A" ++ [9] ++ lit "b.py"] H1 H2)
    as (txt & Ht & Hj & Hs).
  exists txt. split; [exact Ht|]. split; [|exact Hs].
  rewrite Hj. vm_compute. reflexivity.
Defined.

(** X4. When git lists the changed paths one per line, [patch_summary]
    asks for the diff of exactly the first [limit] of them, in listing
    order, and builds its blocks from those of them that have a diff. *)
Theorem patch_summary_visits_listed_paths w base head (paths : list str) (n : nat) :
  stdout (os_exec w (name_only_cmd base head)) = printed_lines paths →
  Forall clean_line paths →
  spawned (world_after (patch_summary base head (Z.of_nat n)) w)
  = spawned w ++ name_only_cmd base head
                 :: ((λ f, [lit "git"; lit "diff"; base ++ lit ".." ++ head;
                            lit "--"; f]) <$> take n paths)
  ∧ value_of (patch_summary base head (Z.of_nat n)) w
    = Ok (join (lit "
") (block_of w base head
        <$> filter (has_diff w base head) (take n paths))).
Proof.
  intros E H.
  assert (listed_files w base head = paths) as L.
  { unfold listed_files, run_result. rewrite E. by apply lines_read_back. }
  unfold world_after, value_of. rewrite patch_summary_eq.
  cbn [fst snd log_spawns spawned]. by rewrite slice_to_nonneg, L.
Qed.

Lemma patch_summary_visits_listed_paths_witness :
  spawned (world_after (patch_summary (lit "main") (lit "dev") 2) gap_world)
  = [name_only_cmd (lit "main") (lit "dev");
     file_diff_cmd (lit "main") (lit "dev") (lit "a.py");
     file_diff_cmd (lit "main") (lit "dev") (lit "b.py")].
Proof.
  assert (stdout (os_exec gap_world (name_only_cmd (lit "main") (lit "dev")))
          = printed_lines [lit "a.py"; lit "b.py"; lit "c.py"]) as H1
    by (vm_compute; reflexivity).
  assert (Forall clean_line [lit "a.py"; lit "b.py"; lit "c.py"]) as H2.
  { repeat (apply Forall_cons; split; [|]); [| | |by apply Forall_nil].
    all: (split; [vm_compute; discriminate|]);
      (split; [vm_compute; reflexivity|]);
      (split; [vm_compute; reflexivity|]);
      vm_compute; by repeat constructor. }
  exact (proj1 (patch_summary_visits_listed_paths gap_world (lit "main")
                  (lit "dev") [lit "a.py"; lit "b.py"; lit "c.py"] 2 H1 H2)).
Defined.

(** A first path that starts with a space is not read back as listed:
    the strip of [run] takes the space away. *)
Example leading_space_is_lost :
  stdout (os_exec spaced_world (name_only_cmd (lit "main") (lit "dev")))
  = printed_lines [lit " a.py"; lit "b.py"]
  ∧ listed_files spaced_world (lit "main") (lit "dev") = [lit "a.py"; lit "b.py"].
Proof. split; vm_compute; reflexivity. Qed.

(** ** More about the patch summary *)

Lemma splitlines_from_no_break (n : nat) : ∀ (s cur : str),
  (length s ≤ n)%nat →
  Forall (λ c, is_linebreak c = false) cur →
  Forall (Forall (λ c, is_linebreak c = false)) (splitlines_from cur s).
Proof.
  induction n as [|n IH]; intros s cur Hn Hcur.
  - destruct s; [|cbn in Hn; lia]. cbn.
    destruct cur; [constructor|constructor; [exact Hcur|constructor]].
  - destruct s as [|c s].
    { cbn. destruct cur; [constructor|constructor; [exact Hcur|constructor]]. }
    cbn [length] in Hn. cbn [splitlines_from].
    repeat case_match; subst;
      try (apply Forall_cons; split; [done|apply IH; [cbn [length] in *; lia|done]]).
    apply IH; [lia|]. apply Forall_app. split; [done|]. by repeat constructor.
Qed.

Lemma slice_to_take {A} (l : list A) (n : Z) : ∃ k, slice_to l n = take k l.
Proof. unfold slice_to. destruct (n <? 0)%Z; eauto. Qed.

(** X5. No path handed to [git diff] by [patch_summary] contains a
    line break: the paths are the lines of the listing, and the
    per-file commands are run for them in order after the listing
    command. *)
Theorem visited_paths_are_single_lines w base head limit :
  let visited := slice_to (listed_files w base head) limit in
  spawned (world_after (patch_summary base head limit) w)
  = spawned w ++ name_only_cmd base head
                 :: ((λ f, [lit "git"; lit "diff"; base ++ lit ".." ++ head;
                            lit "--"; f]) <$> visited)
  ∧ Forall (λ f, Forall (λ c, is_linebreak c = false) f) visited.
Proof.
  intros visited. split.
  - unfold world_after. rewrite patch_summary_eq. reflexivity.
  - unfold visited. destruct (slice_to_take (listed_files w base head) limit)
      as [k ->]. apply Forall_take. unfold listed_files, splitlines.
    by eapply splitlines_from_no_break.
Qed.

Lemma filter_nil_iff {A} (P : A → Prop) `{∀ x, Decision (P x)} (l : list A) :
  filter P l = [] ↔ Forall (λ x, ¬ P x) l.
Proof.
  induction l as [|x l IH]; [by rewrite filter_nil|].
  rewrite Forall_cons. destruct (decide (P x)).
  - rewrite filter_cons_True by done. split; [done|tauto].
  - rewrite filter_cons_False by done. tauto.
Qed.

Lemma join_nil_iff sep (l : list str) :
  Forall (λ x, x ≠ []) l → join sep l = [] ↔ l = [].
Proof.
  intros H. split; [|by intros ->].
  destruct H as [|x l Hx H]; [done|]. intros E. exfalso.
  destruct l as [|y l]; [done|]. rewrite join_cons_cons in E.
  by apply app_eq_nil in E as [E _].
Qed.

Lemma patch_block_ne f p : patch_block f p ≠ [].
Proof.
  unfold patch_block.
  assert (∃ r, lit "
### " = 10 :: r) as [r ->] by (eexists; vm_compute; reflexivity).
  done.
Qed.

(** X6. The patch summary is the empty string exactly when none of the
    visited paths has a diff; no block is ever empty. *)
Theorem patch_summary_empty_iff w base head limit :
  value_of (patch_summary base head limit) w = Ok []
  ↔ Forall (λ f, file_diff w base head f = [])
      (slice_to (listed_files w base head) limit).
Proof.
  unfold value_of. rewrite patch_summary_eq. cbn [fst].
  set (visited := slice_to (listed_files w base head) limit).
  split.
  - intros [= E]. apply join_nil_iff in E.
    + apply fmap_nil_inv, filter_nil_iff in E.
      eapply Forall_impl; [exact E|]. intros f Hf. cbv beta in Hf.
      unfold has_diff in Hf. by destruct (decide (file_diff w base head f = [])).
    + apply Forall_fmap, Forall_forall. intros f _. apply patch_block_ne.
  - intros H. f_equal.
    assert (filter (has_diff w base head) visited = []) as ->; [|done].
    apply filter_nil_iff. eapply Forall_impl; [exact H|].
    intros f Hf Hd. by apply Hd.
Qed.

(** X7. The bound of [files[:limit]] at its edges: with limit 0 only
    the listing command is run and the summary is empty; a limit that
    is not below the number of listed paths visits them all; a negative
    limit [-k] leaves out the last [k] listed paths. *)
Theorem patch_summary_limit_edges w base head :
  let listing := listed_files w base head in
  (patch_summary base head 0 w = (Ok [], log_spawns [name_only_cmd base head] w))
  ∧ (∀ n : nat, (length listing ≤ n)%nat →
       spawned (world_after (patch_summary base head (Z.of_nat n)) w)
       = spawned w ++ name_only_cmd base head
                      :: (file_diff_cmd base head <$> listing))
  ∧ (∀ k : nat, (0 < k)%nat →
       spawned (world_after (patch_summary base head (- Z.of_nat k)) w)
       = spawned w ++ name_only_cmd base head
                      :: (file_diff_cmd base head
                          <$> take (length listing - k) listing)).
Proof.
  intros listing. split; [|split].
  - rewrite patch_summary_eq. change 0%Z with (Z.of_nat 0).
    by rewrite slice_to_nonneg, take_0.
  - intros n Hn. unfold world_after. rewrite patch_summary_eq.
    cbn [snd log_spawns spawned]. by rewrite slice_to_nonneg, take_ge.
  - intros k Hk. unfold world_after. rewrite patch_summary_eq.
    cbn [snd log_spawns spawned]. unfold slice_to.
    destruct (Z.ltb_spec (- Z.of_nat k) 0); [|lia].
    by rewrite Z.opp_involutive, Nat2Z.id.
Qed.

Lemma patch_summary_limit_edges_witness :
  spawned (world_after (patch_summary (lit "main") (lit "dev") 5) gap_world)
  = [name_only_cmd (lit "main") (lit "dev");
     file_diff_cmd (lit "main") (lit "dev") (lit "a.py");
     file_diff_cmd (lit "main") (lit "dev") (lit "b.py");
     file_diff_cmd (lit "main") (lit "dev") (lit "c.py")]
  ∧ spawned (world_after (patch_summary (lit "main") (lit "dev") (-1)) gap_world)
    = [name_only_cmd (lit "main") (lit "dev");
       file_diff_cmd (lit "main") (lit "dev") (lit "a.py");
       file_diff_cmd (lit "main") (lit "dev") (lit "b.py")].
Proof.
  destruct (patch_summary_limit_edges gap_world (lit "main") (lit "dev"))
    as (_ & Hall & Hneg).
  assert (length (listed_files gap_world (lit "main") (lit "dev")) ≤ 5)%nat
    as H5 by (vm_compute; lia).
  split.
  - etrans; [exact (Hall 5%nat H5)|vm_compute; reflexivity].
  - etrans; [exact (Hneg 1%nat (Nat.lt_0_succ 0))|vm_compute; reflexivity].
Defined.

(** ** More about [main] *)



(** X9. A run spawns between four and fourteen processes: the branch
    query first, then the log and the two listings, then one diff per
    visited path; every one of them is a git command. *)
Theorem main_spawns_only_git w :
  ∃ cmds, spawned (world_after main w) = spawned w ++ cmds
    ∧ length cmds
      = (4 + min 10 (length (listed_files w (base_ref (argv w))
                               (run_result w branch_cmd))))%nat
    ∧ (4 ≤ length cmds ≤ 14)%nat
    ∧ cmds !! 0%nat = Some [lit "git"; lit "rev-parse"; lit "--abbrev-ref";
                            lit "HEAD"]
    ∧ Forall (λ cmd, head cmd = Some (lit "git")) cmds.
Proof.
  exists (commands_for w (base_ref (argv w))).
  split; [apply main_spawned|].
  unfold commands_for. cbv zeta.
  set (fs := take 10 _).
  assert (length fs = min 10 (length (listed_files w (base_ref (argv w))
                                        (run_result w branch_cmd)))) as L
    by apply length_take.
  split; [|split; [|split]].
  - rewrite length_app, length_fmap, L. reflexivity.
  - rewrite length_app, length_fmap, L. cbn [length]. lia.
  - reflexivity.
  - apply Forall_app. split; [by repeat constructor|].
    apply Forall_fmap, Forall_forall. by intros f _.
Qed.

(** X10. An argument that is given is the base reference as it stands,
    also when it is the empty string: the default [main] is taken only
    when no argument is there at all. *)
Theorem given_base_used_as_is w b :
  argv w !! 1%nat = Some b →
  let head := run_result w branch_cmd in
  let range := b ++ lit ".." ++ head in
  value_of main_prompt w = Ok (prompt_for w b)
  ∧ spawned (world_after main w)
    = spawned w
      ++ [[lit "git"; lit "rev-parse"; lit "--abbrev-ref"; lit "HEAD"];
          [lit "git"; lit "log"; lit "--pretty=format:- %s"; range];
          [lit "git"; lit "diff"; lit "--name-status"; range];
          [lit "git"; lit "diff"; lit "--name-only"; range]]
      ++ ((λ f, [lit "git"; lit "diff"; range; lit "--"; f])
          <$> take 10 (listed_files w b head)).
Proof.
  intros H head range.
  assert (base_ref (argv w) = b) as E by (unfold base_ref; by rewrite H).
  split.
  - by rewrite main_prompt_value, E.
  - rewrite main_spawned, E. reflexivity.
Qed.

Lemma given_base_used_as_is_witness :
  argv (dev_world [lit "generate_pr.py"; []]) !! 1%nat = Some []
  ∧ spawned (world_after main (dev_world [lit "generate_pr.py"; []]))
    = [[lit "git"; lit "rev-parse"; lit "--abbrev-ref"; lit "HEAD"];
       [lit "git"; lit "log"; lit "--pretty=format:- %s"; lit "..dev"];
       [lit "git"; lit "diff"; lit "--name-status"; lit "..dev"];
       [lit "git"; lit "diff"; lit "--name-only"; lit "..dev"]].
Proof.
  assert (argv (dev_world [lit "generate_pr.py"; []]) !! 1%nat = Some [])
    as H by reflexivity.
  split; [exact H|].
  pose proof (proj2 (given_base_used_as_is
                       (dev_world [lit "generate_pr.py"; []]) [] H)) as E.
  rewrite E. vm_compute. reflexivity.
Defined.

Lemma prompt_body_in_order t r h b c f p :
  in_order [t; r; h; b; c; f; p] (prompt_body t r h b c f p).
Proof.
  unfold prompt_body. cbn [in_order].
  do 7 (eexists _, _; split; [reflexivity|]). exact I.
Qed.

(** X11. In every prompt the interpolated texts stand in the order of
    the f-string: the template, the directory name, the head and the
    base reference, the commit list, the file list and the patch
    summary. *)
Theorem prompt_sections_in_order w :
  ∃ p, value_of main_prompt w = Ok p
    ∧ let base := base_ref (argv w) in
      let head := run_result w branch_cmd in
      in_order [template_of (files w); cwd_name w; head; base;
                run_result w (log_cmd base head);
                run_result w (name_status_cmd base head);
                patches_for w base head] p.
Proof.
  eexists. split; [apply main_prompt_value|]. cbv zeta.
  rewrite prompt_for_body. apply prompt_body_in_order.
Qed.

Lemma silent_run_result w cmd : silent w → run_result w cmd = [].
Proof. intros H. unfold run_result. apply strip_nil_iff, H. Qed.

(** X12. When no command writes anything but whitespace to standard
    output, the prompt is still assembled: the head reference, the
    commit list, the file list and the patch summary in it are empty,
    and only the four queries are run, none for a single file.  When
    this prompt can be encoded the run completes and writes it. *)
Theorem silent_tool_gives_empty_sections w :
  silent w →
  let base := base_ref (argv w) in
  let p := prompt_body (template_of (files w)) (cwd_name w) [] base [] [] [] in
  value_of main_prompt w = Ok p
  ∧ spawned (world_after main w)
    = spawned w
      ++ [[lit "git"; lit "rev-parse"; lit "--abbrev-ref"; lit "HEAD"];
          [lit "git"; lit "log"; lit "--pretty=format:- %s"; base ++ lit ".."];
          [lit "git"; lit "diff"; lit "--name-status"; base ++ lit ".."];
          [lit "git"; lit "diff"; lit "--name-only"; base ++ lit ".."]]
  ∧ (encodable p = true →
     value_of main w = Ok ()
     ∧ files (world_after main w) !! output_path = Some p).
Proof.
  intros H base p.
  assert (run_result w branch_cmd = []) as Eh by by apply silent_run_result.
  assert (listed_files w base [] = []) as El.
  { unfold listed_files. by rewrite silent_run_result. }
  assert (patches_for w base [] = []) as Ep.
  { unfold patches_for. by rewrite El. }
  assert (prompt_for w base = p) as E.
  { rewrite prompt_for_body.
    rewrite Eh, Ep, !silent_run_result by done. reflexivity. }
  split; [|split].
  - rewrite main_prompt_value. fold base. by rewrite E.
  - rewrite main_spawned. fold base. unfold commands_for.
    cbv zeta. rewrite Eh, El. cbn [take fmap list_fmap].
    unfold log_cmd, name_status_cmd, name_only_cmd, branch_cmd.
    by rewrite !app_nil_r.
  - intros Hp.
    assert (encodable (prompt_for w (base_ref (argv w))) = true) as Hp'
      by (fold base; by rewrite E).
    split; [by apply main_returns|].
    rewrite main_file_after by done. fold base. by rewrite E.
Qed.

Lemma silent_tool_gives_empty_sections_witness :
  silent silent_world
  ∧ spawned (world_after main silent_world)
    = [[lit "git"; lit "rev-parse"; lit "--abbrev-ref"; lit "HEAD"];
       [lit "git"; lit "log"; lit "--pretty=format:- %s"; lit "main.."];
       [lit "git"; lit "diff"; lit "--name-status"; lit "main.."];
       [lit "git"; lit "diff"; lit "--name-only"; lit "main.."]]
  ∧ value_of main silent_world = Ok ().
Proof.
  assert (silent silent_world) as H by (intros cmd; reflexivity).
  destruct (silent_tool_gives_empty_sections silent_world H) as (_ & E & Hf).
  split; [exact H|]. split.
  - rewrite E. vm_compute. reflexivity.
  - apply Hf. vm_compute. reflexivity.
Defined.

(** X13. Of the files, only the two template paths matter to the
    prompt: two runs with the same [sys.argv[1]], command outcomes and
    directory, whose files agree at both template paths, assemble the
    same prompt, whatever else the file systems hold. *)
Theorem prompt_reads_only_template_paths w1 w2 :
  argv w1 !! 1%nat = argv w2 !! 1%nat →
  os_exec w1 = os_exec w2 → cwd_name w1 = cwd_name w2 →
  files w1 !! lit ".pull_request_template.md"
  = files w2 !! lit ".pull_request_template.md" →
  files w1 !! lit ".github/pull_request_template.md"
  = files w2 !! lit ".github/pull_request_template.md" →
  value_of main_prompt w1 = value_of main_prompt w2
  ∧ files (world_after main w1) !! output_path
    = files (world_after main w2) !! output_path.
Proof.
  intros Ha He Hc H1 H2.
  assert (base_ref (argv w1) = base_ref (argv w2)) as Eb
    by (unfold base_ref; by rewrite Ha).
  assert (template_of (files w1) = template_of (files w2)) as Et
    by (unfold template_of; by rewrite H1, H2).
  pose proof (prompt_for_template_ext w1 w2 (base_ref (argv w2)) He Hc Et) as Ep.
  split.
  - by rewrite !main_prompt_value, Eb, Ep.
  - by rewrite !main_files_after, Eb, Ep, !lookup_insert_eq.
Qed.

Lemma prompt_reads_only_template_paths_witness :
  value_of main_prompt
    (bare_world [lit "generate_pr.py"] (exec_table dev_table)
       {[ lit "README.md" := lit "# notes"; output_path := lit "old prompt" ]})
  = value_of main_prompt (dev_world [lit "generate_pr.py"]).
Proof.
  apply (prompt_reads_only_template_paths
           (bare_world [lit "generate_pr.py"] (exec_table dev_table)
              {[ lit "README.md" := lit "# notes";
                 output_path := lit "old prompt" ]})
           (dev_world [lit "generate_pr.py"]));
    [reflexivity|reflexivity|reflexivity|vm_compute; reflexivity
    |vm_compute; reflexivity].
Defined.

Lemma prompt_for_after_main w base :
  prompt_for (world_after main w) base = prompt_for w base.
Proof.
  destruct (main_keeps_environment w) as (_ & He & Hc).
  apply prompt_for_template_ext; [done|done|].
  rewrite main_files_after. apply template_of_insert_output.
Qed.

(** X14. The output file is not an input of the script: a second run
    right after the first assembles the same prompt and leaves the
    files as the first run left them; when the prompt can be encoded,
    the console then shows the confirmation twice. *)
Theorem second_run_changes_nothing w :
  value_of main_prompt (world_after main w) = value_of main_prompt w
  ∧ files (world_after main (world_after main w)) = files (world_after main w)
  ∧ (∀ p, value_of main_prompt w = Ok p → encodable p = true →
     console (world_after main (world_after main w))
     = console w ++ [confirmation; confirmation]).
Proof.
  destruct (main_keeps_environment w) as (Ea & _ & _).
  assert (prompt_for (world_after main w) (base_ref (argv (world_after main w)))
          = prompt_for w (base_ref (argv w))) as E
    by (rewrite Ea; apply prompt_for_after_main).
  split; [|split].
  - by rewrite !main_prompt_value, E.
  - rewrite (main_files_after (world_after main w)), E.
    rewrite (main_files_after w). apply insert_insert_eq.
  - intros p Hp Hen. rewrite main_prompt_value in Hp. injection Hp as <-.
    rewrite (main_console (world_after main w)), E, Hen.
    rewrite (main_console w), Hen. by rewrite <- app_assoc.
Qed.

Lemma second_run_changes_nothing_witness :
  console (world_after main (world_after main example_world))
  = [confirmation; confirmation].
Proof.
  destruct (second_run_changes_nothing example_world) as (_ & _ & H).
  apply (H example_prompt example_prompt_value). vm_compute. reflexivity.
Defined.

(** X16. When the assembled prompt holds a lone surrogate, the run
    raises [UnicodeEncodeError] at the write, after all git commands
    have run: the output file is left empty, whatever it held before,
    and no confirmation is printed. *)
Theorem unencodable_prompt_aborts_write w old :
  let w0 := store_file output_path old w in
  ∀ p, value_of main_prompt w0 = Ok p → encodable p = false →
  value_of main w0 = Raise UnicodeEncodeError
  ∧ files (world_after main w0) !! output_path = Some []
  ∧ console (world_after main w0) = console w
  ∧ spawned (world_after main w0)
    = spawned w ++ commands_for w (base_ref (argv w)).
Proof.
  intros w0 p Hp Hen. rewrite main_prompt_value in Hp. injection Hp as <-.
  assert (encodable (prompt_for w0 (base_ref (argv w0))) = false) as Hen'
    by exact Hen.
  clear Hen. rename Hen' into Hen.
  split; [|split; [|split]].
  - unfold value_of. by rewrite main_eq, Hen.
  - rewrite main_files_after, Hen. apply lookup_insert_eq.
  - by rewrite main_console, Hen.
  - rewrite main_spawned.
    by rewrite (commands_for_ext w0 w (base_ref (argv w0)) eq_refl).
Qed.

Lemma unencodable_prompt_aborts_write_witness :
  value_of main (store_file output_path (lit "old prompt") surrogate_world)
  = Raise UnicodeEncodeError
  ∧ files (world_after main
             (store_file output_path (lit "old prompt") surrogate_world))
      !! output_path = Some [].
Proof.
  assert (encodable (prompt_for surrogate_world
                       (base_ref (argv surrogate_world))) = false) as Hen
    by (vm_compute; reflexivity).
  destruct (unencodable_prompt_aborts_write surrogate_world (lit "old prompt")
              (prompt_for surrogate_world (base_ref (argv surrogate_world))))
    as (H1 & H2 & _).
  - rewrite main_prompt_value. apply (f_equal Ok).
    apply prompt_for_template_ext; [done|done|].
    apply template_of_insert_output.
  - exact Hen.
  - split; [exact H1|exact H2].
Defined.

(** X15. The size of a block: the path, at most 1500 characters of
    diff, and 18 characters of markup around them.  The block holds the
    whole diff exactly when the diff has at most 1500 characters. *)
Theorem patch_block_size (f p : str) :
  length (patch_block f p) = (length f + min 1500 (length p) + 18)%nat
  ∧ (patch_block f p = lit "
### " ++ f ++ lit "
```diff
" ++ p ++ lit "
```" ↔ (length p ≤ 1500)%nat).
Proof.
  unfold patch_block. split.
  - rewrite !length_app, length_take.
    assert (length (lit "
### ") = 5%nat) as -> by (vm_compute; reflexivity).
    assert (length (lit "
```diff
") = 9%nat) as -> by (vm_compute; reflexivity).
    assert (length (lit "
```") = 4%nat) as -> by (vm_compute; reflexivity).
    lia.
  - split.
    + intros E. do 3 apply app_inv_head in E. apply app_inv_tail in E.
      apply (f_equal length) in E. rewrite length_take in E. lia.
    + intros H. by rewrite take_ge.
Qed.
